(** * Mongo-x-Python-Models: the connection handler and the repository

    A shallow embedding of [connection.py] and [repository.py].  A Python
    computation is a function from the world (the remote store together with
    the list of calls that reached it) to a result, which is either a returned
    value or a raised exception, and the world it leaves behind.  The pymongo
    driver is a parameter of the development: every answer of the store is
    an arbitrary function of the store's state and of the call's arguments. *)

From Stdlib Require Import ZArith List String Ascii Bool Lia QArith.
Import ListNotations.

Local Open Scope string_scope.
Local Open Scope Z_scope.

(** ** Exceptions *)

Module PyExn.

(** The exception classes the two files name, the pymongo classes between
    them in the class hierarchy, and the built-in classes the interpreter
    raises on the paths modelled here. *)
Inductive exn_kind :=
  | ConnectionFailure
  | AutoReconnect
  | NetworkTimeout
  | NotPrimaryError
  | ServerSelectionTimeoutError
  | ConfigurationError
  | OperationFailure
  | CursorNotFound
  | ExecutionTimeout
  | WriteConcernError
  | WTimeoutError
  | WriteError
  | DuplicateKeyError
  | BulkWriteError
  | InvalidOperation
  | InvalidName
  | DocumentTooLarge
  | InvalidId
  | ValueError
  | TypeError
  | OverflowError
  | AttributeError.

Definition kind_eq_dec (a b : exn_kind) : {a = b} + {a <> b}.
Proof. decide equality. Defined.

Definition kind_eqb (a b : exn_kind) : bool :=
  if kind_eq_dec a b then true else false.

(** [type(e).__name__] *)
Definition kind_name (k : exn_kind) : string :=
  match k with
  | ConnectionFailure => "ConnectionFailure"
  | AutoReconnect => "AutoReconnect"
  | NetworkTimeout => "NetworkTimeout"
  | NotPrimaryError => "NotPrimaryError"
  | ServerSelectionTimeoutError => "ServerSelectionTimeoutError"
  | ConfigurationError => "ConfigurationError"
  | OperationFailure => "OperationFailure"
  | CursorNotFound => "CursorNotFound"
  | ExecutionTimeout => "ExecutionTimeout"
  | WriteConcernError => "WriteConcernError"
  | WTimeoutError => "WTimeoutError"
  | WriteError => "WriteError"
  | DuplicateKeyError => "DuplicateKeyError"
  | BulkWriteError => "BulkWriteError"
  | InvalidOperation => "InvalidOperation"
  | InvalidName => "InvalidName"
  | DocumentTooLarge => "DocumentTooLarge"
  | InvalidId => "InvalidId"
  | ValueError => "ValueError"
  | TypeError => "TypeError"
  | OverflowError => "OverflowError"
  | AttributeError => "AttributeError"
  end.

(** The direct base class, as [pymongo.errors] declares it, when that base is
    itself one of the classes above.  The bases left out ([PyMongoError],
    [BSONError], [Exception]) are named by no [except] clause of the
    repository. *)
Definition base (k : exn_kind) : option exn_kind :=
  match k with
  | AutoReconnect => Some ConnectionFailure
  | NetworkTimeout | NotPrimaryError | ServerSelectionTimeoutError =>
      Some AutoReconnect
  | CursorNotFound | ExecutionTimeout | WriteConcernError | WriteError
  | BulkWriteError => Some OperationFailure
  | WTimeoutError => Some WriteConcernError
  | DuplicateKeyError => Some WriteError
  | _ => None
  end.

Fixpoint issubclass_upto (depth : nat) (k c : exn_kind) : bool :=
  kind_eqb k c ||
  match depth with
  | O => false
  | S d => match base k with
           | Some b => issubclass_upto d b c
           | None => false
           end
  end.

(** No chain of bases above is longer than two steps. *)
Definition issubclass (k c : exn_kind) : bool := issubclass_upto 2 k c.

(** An exception object: its class and the text [str(e)] gives. *)
Record exn := mk_exn { exn_type : exn_kind; exn_str : string }.

Definition isinstance (e : exn) (c : exn_kind) : bool :=
  issubclass (exn_type e) c.

(** [except (c1, ..., cn)]: the clause takes [e] when it is an instance of
    one of the listed classes. *)
Definition catches (classes : list exn_kind) (e : exn) : bool :=
  existsb (isinstance e) classes.

End PyExn.
Export PyExn.

(** ** Values *)

#[local] Set Warnings "-register-all".

(** Python values as the repository handles them: documents, filters and
    return options are dicts with string keys, kept as the list of their
    items in iteration order.  A float is represented by the rational number
    it denotes (every finite float is one). *)
Inductive pyval :=
  | VNone
  | VBool (b : bool)
  | VInt (n : Z)
  | VFloat (x : Q)
  | VStr (s : string)
  | VObjectId (hex : string)
  | VList (l : list pyval)
  | VDict (items : list (string * pyval)).

(** [type(v) in [int, float]]: the exact class of [v] is compared with the
    two classes, so an instance of a subclass of [int] ([bool]) is not in. *)
Definition type_in_int_float (v : pyval) : bool :=
  match v with
  | VInt _ | VFloat _ => true
  | _ => false
  end.

(** [v == z] for an integer constant [z]: Python compares numbers by value
    across [bool], [int] and [float]; every other class is unequal to an
    integer. *)
Definition py_eq_int (v : pyval) (z : Z) : bool :=
  match v with
  | VInt n => Z.eqb n z
  | VBool b => Z.eqb (if b then 1 else 0) z
  | VFloat x => Qeq_bool x (inject_Z z)
  | _ => false
  end.

(** [v in [z1, ..., zn]] *)
Definition py_in_ints (v : pyval) (zs : list Z) : bool :=
  existsb (py_eq_int v) zs.

(** ** Results and computations *)

Inductive result (A : Type) :=
  | Ret (a : A)
  | Raise (e : exn).
Arguments Ret {A} a.
Arguments Raise {A} e.

(** The line feed an f-string writes for [\n]. *)
Definition nl : string := String (ascii_of_nat 10) EmptyString.

(** ** The calls that reach the store *)

(** One constructor per method of a pymongo collection the repository uses,
    with the arguments the method is given.  [Find] stands for a cursor that
    is built, optionally sorted, and read to its end. *)
Inductive call :=
  | InsertOne (document : pyval)
  | InsertMany (documents : list pyval)
  | Find (filter : pyval) (projection : option pyval)
         (sort : option (list (string * Z)))
  | FindOne (filter : pyval) (projection : option pyval)
  | UpdateOne (filter update : pyval)
  | UpdateMany (filter update : pyval)
  | DeleteOne (filter : pyval)
  | DeleteMany (filter : pyval)
  | CreateIndex (keys : list (string * pyval))
                (expireAfterSeconds : option pyval).

(** What the repository reads from the answer: the document (or documents)
    as the driver leaves them after it has filled in a missing [_id], the
    documents a cursor yields, the document [find_one] returns ([VNone] when
    there is none), [modified_count], [deleted_count]; nothing of the answer
    to [create_index] is read. *)
Definition answer (c : call) : Type :=
  match c with
  | InsertOne _ => pyval
  | InsertMany _ => list pyval
  | Find _ _ _ => list pyval
  | FindOne _ _ => pyval
  | UpdateOne _ _ | UpdateMany _ _ => Z
  | DeleteOne _ | DeleteMany _ => Z
  | CreateIndex _ _ => unit
  end.

(** The count an answer carries, for the calls whose answer is a count. *)
Definition count_of (c : call) : answer c -> Z :=
  match c return answer c -> Z with
  | UpdateOne _ _ | UpdateMany _ _ | DeleteOne _ | DeleteMany _ => fun n => n
  | _ => fun _ => 0
  end.

(** The driver: resolution of a collection by name (local to the driver, it
    does not change the store), the answer of the store to a call on a
    collection, and what the constructor of [BulkWriteError] makes of a
    message (it expects the result document of a bulk write, and what it does
    with a string differs between pymongo releases). *)
Record Driver (Db Coll Store : Type) := {
  drv_get_collection : Db -> string -> Store -> result Coll;
  drv_call : Coll -> forall c : call, Store -> result (answer c) * Store;
  drv_bulk_write_error : string -> result exn
}.
Arguments drv_get_collection {Db Coll Store} _ _ _ _.
Arguments drv_call {Db Coll Store} _ _ _ _.
Arguments drv_bulk_write_error {Db Coll Store} _ _.

(** The world a repository operation runs in: the store and the calls that
    have reached it, oldest first. *)
Record World (Store : Type) := mk_world {
  store : Store;
  calls : list call
}.
Arguments mk_world {Store} _ _.
Arguments store {Store} _.
Arguments calls {Store} _.

Definition M (Store A : Type) : Type := World Store -> result A * World Store.

Definition ret {Store A} (a : A) : M Store A := fun w => (Ret a, w).

Definition raise {Store A} (e : exn) : M Store A := fun w => (Raise e, w).

Definition bind {Store A B} (m : M Store A) (k : A -> M Store B) : M Store B :=
  fun w => match m w with
           | (Ret a, w') => k a w'
           | (Raise e, w') => (Raise e, w')
           end.

Notation "x <- m ;; k" := (bind m (fun x => k))
  (at level 61, m at next level, right associativity).

(** [try: body except cs1 as e: h1 e except cs2 as e: h2 e ...]: the first
    clause that takes the exception handles it, and an exception no clause
    takes goes on to the caller. *)
Fixpoint handle {Store A} (clauses : list (list exn_kind * (exn -> M Store A)))
    (e : exn) : M Store A :=
  match clauses with
  | [] => raise e
  | (classes, h) :: rest =>
      if catches classes e then h e else handle rest e
  end.

Definition try_except {Store A} (body : M Store A)
    (clauses : list (list exn_kind * (exn -> M Store A))) : M Store A :=
  fun w => match body w with
           | (Ret a, w') => (Ret a, w')
           | (Raise e, w') => handle clauses e w'
           end.

(** [raise e(msg)] where [e] is the caught exception object: the object is
    called, which it does not support, and the interpreter raises
    [TypeError]. *)
Definition raise_call_instance {Store A} (e : exn) (msg : string) : M Store A :=
  raise (mk_exn TypeError
           ("'" ++ kind_name (exn_type e) ++ "' object is not callable")).

(** [raise msg] where [msg] is a string: only exceptions can be raised, and
    the interpreter raises [TypeError]. *)
Definition raise_str {Store A} (msg : string) : M Store A :=
  raise (mk_exn TypeError "exceptions must derive from BaseException").

(** ** [str.lower] and the time units *)

Definition lower_ascii (a : ascii) : ascii :=
  let n := nat_of_ascii a in
  if (Nat.leb 65 n && Nat.leb n 90)%bool then ascii_of_nat (n + 32) else a.

(** [s.lower()] on the ASCII letters, which are the only characters whose
    lower case occurs in the names of the four time units. *)
Fixpoint lower (s : string) : string :=
  match s with
  | EmptyString => EmptyString
  | String a rest => String (lower_ascii a) (lower rest)
  end.

(** The dict [time_units] of [create_new_index_ttl], read with [.get]: each
    value is a [timedelta] of one unit, represented by the whole number of
    seconds its [total_seconds()] gives. *)
Definition time_units_get (name : string) : option Z :=
  if String.eqb name "seconds" then Some 1
  else if String.eqb name "minutes" then Some 60
  else if String.eqb name "hours" then Some 3600
  else if String.eqb name "days" then Some 86400
  else None.

(** A [timedelta] holds between -999999999 days and 999999999 days
    23:59:59.999999; these are the whole numbers of seconds in that range. *)
Definition timedelta_min_seconds : Z := - 999999999 * 86400.
Definition timedelta_max_seconds : Z := 999999999 * 86400 + 86399.

Definition timedelta_in_range (seconds : Z) : bool :=
  (timedelta_min_seconds <=? seconds) && (seconds <=? timedelta_max_seconds).

(** ** The repository *)

Section Repository.

Context {Db Coll Store : Type}.

(** The libraries under the repository: the pymongo driver, the constructor
    [ObjectId] of bson, and the text of the [OverflowError] that [timedelta]
    (or the conversion of an integer to a float) raises for a number of
    seconds out of range. *)
Variable drv : Driver Db Coll Store.
Variable object_id : string -> result pyval.
Variable overflow_text : Z -> string.

#[local] Abbreviation Py := (M Store).

(** [raise type(e)(msg)]: a new exception of the class of the one caught.
    Every class here but [BulkWriteError] is built from one message, which
    is then what [str] gives. *)
Definition raise_same_type {A} (e : exn) (msg : string) : Py A :=
  match exn_type e with
  | BulkWriteError =>
      match drv_bulk_write_error drv msg with
      | Ret e' => raise e'
      | Raise e' => raise e'
      end
  | k => raise (mk_exn k msg)
  end.

Definition insert_exceptions_decorator {A} (func : Py A) : Py A :=
  try_except func
    [ ([DuplicateKeyError], fun e =>
         raise (mk_exn DuplicateKeyError
           ("Error to insert a document':" ++ exn_str e ++ nl ++
            "Check if you are not inserting one document with with a repeated unique index")));
      ([CursorNotFound; OperationFailure; WriteConcernError], fun e =>
         raise_same_type e
           ("Error to insert a document " ++ exn_str e ++ nl ++
            "Check your permission to insert, your cluster infrastructure and your connection to the Bank."));
      ([ConfigurationError], fun e =>
         raise (mk_exn ConfigurationError
           ("Error to insert a document':" ++ exn_str e ++ nl ++
            "Check if the parameters are valid or present!")));
      ([DocumentTooLarge], fun e =>
         raise (mk_exn DocumentTooLarge
           ("Error to insert a document:" ++ exn_str e ++ nl ++
            "Apparently the document you are trying to insert is larger than the Bank's capacity"))) ].

Definition select_exceptions_decorator {A} (func : Py A) : Py A :=
  try_except func
    [ ([CursorNotFound; OperationFailure; ConnectionFailure], fun e =>
         raise_same_type e
           ("Error to find  the documents." ++ exn_str e ++ nl ++
            "Check your permission to select, your cluster infrastructure and your connection to the Bank."));
      ([ConfigurationError], fun e =>
         raise_str
           ("Error to find  the documents:" ++ exn_str e ++ nl ++
            "Check if the parameters are valid or present!")) ].

Definition delete_exceptions_decorator {A} (func : Py A) : Py A :=
  try_except func
    [ ([DuplicateKeyError], fun e =>
         raise (mk_exn DuplicateKeyError
           ("Error to delete documents:" ++ exn_str e ++ nl ++
            "Check if you are not deleting one document with with a repeated unique index")));
      ([CursorNotFound; OperationFailure; WriteConcernError; InvalidOperation],
       fun e =>
         raise_call_instance e
           ("Error to delete documents" ++ exn_str e ++ nl ++
            "Check your permission to delete, your cluster infrastructure and your connection to the Bank."));
      ([ConfigurationError; BulkWriteError], fun e =>
         raise_call_instance e
           ("Error to delete documents:" ++ exn_str e ++ nl ++
            "Check if the parameters are valid or present!")) ].

Definition update_exceptions_decorator {A} (func : Py A) : Py A :=
  try_except func
    [ ([DuplicateKeyError], fun e =>
         raise (mk_exn DuplicateKeyError
           ("Error to update the documents:" ++ exn_str e ++ nl ++
            "Check that you are not updating a document with a repeated unique index")));
      ([CursorNotFound; OperationFailure; WriteConcernError; InvalidOperation],
       fun e =>
         raise_same_type e
           ("Error to update the documents:" ++ exn_str e ++ nl ++
            "Check your permission to update, your cluster infrastructure and your connection to the Bank. "));
      ([ConfigurationError; BulkWriteError], fun e =>
         raise (mk_exn ConfigurationError
           ("Error to update the documents:" ++ exn_str e ++ nl ++
            "Check if the parameters are valid or present!")));
      ([DocumentTooLarge], fun e =>
         raise (mk_exn DocumentTooLarge
           ("Error to update the documents:" ++ exn_str e ++ nl ++
            "Apparently the document you are trying to update is larger than the Bank's capacity"))) ].

Definition index_exceptions_decorator {A} (func : Py A) : Py A :=
  try_except func
    [ ([DuplicateKeyError], fun e =>
         raise (mk_exn DuplicateKeyError
           ("Error to create the index:" ++ exn_str e ++ nl ++
            "Check that you are not creating an index with a repeated unique index")));
      ([OperationFailure; WriteConcernError; InvalidOperation], fun e =>
         raise_call_instance e
           ("Error to create the index:" ++ exn_str e ++ nl ++
            "Check your permission to create index, your cluster infrastructure and your connection to the Bank. "));
      ([ConfigurationError; DocumentTooLarge], fun e =>
         raise_call_instance e
           ("Error to create the index:" ++ exn_str e ++ nl ++
            "Check if the parameters are valid or present!")) ].

(** The attributes [__init__] sets. *)
Record Repository := {
  __db_connection : Db;
  __collection_name : string;
  __id_query : string;
  __or_query : string;
  __set_query : string;
  __increment_query : string;
  __unset_query : string
}.

Definition Repository_init (db_connection : Db) (collection_name : string)
  : Repository :=
  {| __db_connection := db_connection;
     __collection_name := collection_name;
     __id_query := "_id";
     __or_query := "$or";
     __set_query := "$set";
     __increment_query := "$inc";
     __unset_query := "$unset" |}.

(** A method of the collection is called: the call is recorded and the
    store answers. *)
Definition remote (collection : Coll) (c : call) : Py (answer c) :=
  fun w =>
    let (r, s') := drv_call drv collection c (store w) in
    (r, mk_world s' (calls w ++ [c])).

Definition __get_collection (self : Repository) : Py Coll :=
  try_except
    (fun w => (drv_get_collection drv (__db_connection self)
                 (__collection_name self) (store w), w))
    [ ([OperationFailure], fun e =>
         raise (mk_exn OperationFailure
           ("Error trying to collect collection  '" ++ __collection_name self
            ++ "':" ++ exn_str e ++ "," ++ nl ++
            "Check the name of your collection, your permission or authentication"))) ].

Definition insert_one_document (self : Repository) (document : pyval)
  : Py pyval :=
  insert_exceptions_decorator
    (collection <- __get_collection self ;;
     (* the driver fills a missing [_id] into the very dict it is given, so
        the [document] returned is the dict as the driver left it *)
     document' <- remote collection (InsertOne document) ;;
     ret document').

Definition insert_list_of_documents (self : Repository)
    (list_of_documents : list pyval) : Py (list pyval) :=
  insert_exceptions_decorator
    (collection <- __get_collection self ;;
     list_of_documents' <- remote collection (InsertMany list_of_documents) ;;
     ret list_of_documents').

Definition select_many_documents (self : Repository) (search_filter : pyval)
    (return_options : option pyval) : Py (list pyval) :=
  select_exceptions_decorator
    (collection <- __get_collection self ;;
     data_list <-
       match return_options with
       | None => remote collection (Find search_filter None None)
       | Some _ => remote collection (Find search_filter return_options None)
       end ;;
     ret data_list).

Definition select_one_document (self : Repository) (search_filter : pyval)
    (return_options : option pyval) : Py pyval :=
  select_exceptions_decorator
    (collection <- __get_collection self ;;
     data <-
       match return_options with
       | Some _ => remote collection (FindOne search_filter return_options)
       | None => remote collection (FindOne search_filter None)
       end ;;
     ret data).

Definition select_many_by_order (self : Repository) (search_filter : pyval)
    (order_by : list (string * Z)) (return_options : option pyval)
  : Py (list pyval) :=
  select_exceptions_decorator
    (collection <- __get_collection self ;;
     data_list <-
       match return_options with
       | None => remote collection (Find search_filter None (Some order_by))
       | Some _ =>
           remote collection (Find search_filter return_options (Some order_by))
       end ;;
     ret data_list).

Definition select_by_object_id (self : Repository) (object_id_str : string)
    (return_options : option pyval) : Py pyval :=
  select_exceptions_decorator
    (collection <- __get_collection self ;;
     oid <- (fun w => (object_id object_id_str, w)) ;;
     data <-
       match return_options with
       | None =>
           remote collection (FindOne (VDict [(__id_query self, oid)]) None)
       | Some _ =>
           remote collection
             (FindOne (VDict [(__id_query self, oid)]) return_options)
       end ;;
     ret data).

Definition search_many_or (self : Repository) (search_filter : list pyval)
    (return_options : option pyval) (order_by : option (list (string * Z)))
  : Py (list pyval) :=
  select_exceptions_decorator
    (collection <- __get_collection self ;;
     data <-
       match return_options, order_by with
       | None, None =>
           remote collection
             (Find (VDict [(__or_query self, VList search_filter)]) None None)
       | None, Some _ =>
           remote collection
             (Find (VDict [(__or_query self, VList search_filter)]) None
                order_by)
       | Some _, None =>
           remote collection
             (Find (VDict [(__or_query self, VList search_filter)])
                return_options None)
       | Some _, Some _ =>
           remote collection
             (Find (VDict [(__or_query self, VList search_filter)])
                return_options order_by)
       end ;;
     ret data).

Definition update_one_registry (self : Repository) (search_filter : pyval)
    (properties : pyval) (query : option string) : Py Z :=
  update_exceptions_decorator
    (collection <- __get_collection self ;;
     modified_count <-
       match query with
       | None =>
           remote collection
             (UpdateOne search_filter (VDict [(__set_query self, properties)]))
       | Some q =>
           remote collection
             (UpdateOne search_filter (VDict [(q, properties)]))
       end ;;
     ret modified_count).

Definition update_many_registries (self : Repository) (search_filter : pyval)
    (properties : pyval) (query : option string) : Py Z :=
  update_exceptions_decorator
    (collection <- __get_collection self ;;
     modified_count <-
       match query with
       | None =>
           remote collection
             (UpdateMany search_filter (VDict [(__set_query self, properties)]))
       | Some q =>
           remote collection
             (UpdateMany search_filter (VDict [(q, properties)]))
       end ;;
     ret modified_count).

(** The [$inc] update of one field. *)
Definition increment_call (self : Repository) (search_filter : pyval)
    (key : string) (number : pyval) : call :=
  UpdateMany search_filter
    (VDict [(__increment_query self, VDict [(key, number)])]).

(** The loop of [update_many_with_increment] over the items still to visit,
    with the count accumulated so far. *)
Fixpoint increment_loop (self : Repository) (collection : Coll)
    (search_filter : pyval) (items : list (string * pyval))
    (modified_count : Z) : Py Z :=
  match items with
  | [] => ret modified_count
  | (key, number) :: rest =>
      if negb (type_in_int_float number) then
        raise (mk_exn ValueError
          "The value of increment/decrement must be only an int or a float!")
      else
        response <- remote collection
                      (increment_call self search_filter key number) ;;
        increment_loop self collection search_filter rest
          (modified_count + response)
  end.

Definition update_many_with_increment (self : Repository)
    (search_filter : pyval) (key_and_number : list (string * pyval)) : Py Z :=
  update_exceptions_decorator
    (collection <- __get_collection self ;;
     increment_loop self collection search_filter key_and_number 0).

Definition delete_registry (self : Repository) (search_filter : pyval)
  : Py Z :=
  delete_exceptions_decorator
    (collection <- __get_collection self ;;
     deleted_count <- remote collection (DeleteOne search_filter) ;;
     ret deleted_count).

Definition delete_many_registries (self : Repository) (search_filter : pyval)
  : Py Z :=
  delete_exceptions_decorator
    (collection <- __get_collection self ;;
     deleted_count <- remote collection (DeleteMany search_filter) ;;
     ret deleted_count).

(** [timedelta(seconds=time_to_live * unit.total_seconds()).total_seconds()]
    for an integer [time_to_live] and a unit of [unit_seconds] whole seconds.
    Within the range of [timedelta] every number involved is a whole number
    below 2^53, so the float arithmetic is exact and the outcome is the float
    of the product; out of it, the product (computed exactly or rounded) is
    still out of range, or too large for a float at all, and [OverflowError]
    is raised either way. *)
Definition expire_after_seconds (time_to_live unit_seconds : Z) : Py pyval :=
  if timedelta_in_range (time_to_live * unit_seconds) then
    ret (VFloat (inject_Z (time_to_live * unit_seconds)))
  else
    raise (mk_exn OverflowError (overflow_text (time_to_live * unit_seconds))).

Definition create_new_index_ttl (self : Repository) (time_metric : string)
    (time_to_live : Z) (name_index : string) (order_by : Z) : Py bool :=
  index_exceptions_decorator
    (collection <- __get_collection self ;;
     match time_units_get (lower time_metric) with
     | Some index_time_life =>
         if (order_by =? 1) || (order_by =? -1) then
           expire_after_option <-
             expire_after_seconds time_to_live index_time_life ;;
           _ <- remote collection
                  (CreateIndex [(name_index, VInt order_by)]
                     (Some expire_after_option)) ;;
           ret true
         else
           raise (mk_exn ValueError
             "Invalid order_by parameter. Please use either 1 (ascending) or -1 (descending).")
     | None =>
         raise (mk_exn ValueError
           "Invalid time metric. Please use one of: seconds, minutes, hours, days.")
     end).

(** The loop of [create_new_index] over the items still to visit. *)
Fixpoint index_loop (collection : Coll) (items : list (string * pyval))
  : Py unit :=
  match items with
  | [] => ret tt
  | (key, order) :: rest =>
      if negb (py_in_ints order [-1; 1]) then
        raise (mk_exn ValueError
          "Invalid order_by parameter. Please use either")
      else
        _ <- remote collection (CreateIndex [(key, order)] None) ;;
        index_loop collection rest
  end.

Definition create_new_index (self : Repository)
    (index_dict : list (string * pyval)) : Py bool :=
  index_exceptions_decorator
    (collection <- __get_collection self ;;
     _ <- index_loop collection index_dict ;;
     ret true).

End Repository.

(** ** What the store makes of a sequence of calls *)

Section Replay.

Context {Db Coll Store : Type}.
Variable drv : Driver Db Coll Store.

(** The store takes the calls one after the other on one collection and
    answers each without raising: the counts it reports, in order, and the
    state it ends in.  [None] when one of the calls raises. *)
Fixpoint replay (collection : Coll) (cs : list call) (s : Store)
  : option (list Z * Store) :=
  match cs with
  | [] => Some ([], s)
  | c :: rest =>
      match drv_call drv collection c s with
      | (Ret a, s1) =>
          match replay collection rest s1 with
          | Some (ns, s2) => Some (count_of c a :: ns, s2)
          | None => None
          end
      | (Raise _, _) => None
      end
  end.

End Replay.

Definition sum_counts (ns : list Z) : Z := fold_right Z.add 0 ns.

(** ** The public methods as one type *)

(** A call of a public method of [Repository] with its arguments, so that a
    statement can range over all of them. *)
Inductive operation :=
  | Op_insert_one_document (document : pyval)
  | Op_insert_list_of_documents (list_of_documents : list pyval)
  | Op_select_many_documents (search_filter : pyval)
      (return_options : option pyval)
  | Op_select_one_document (search_filter : pyval)
      (return_options : option pyval)
  | Op_select_many_by_order (search_filter : pyval)
      (order_by : list (string * Z)) (return_options : option pyval)
  | Op_select_by_object_id (object_id : string)
      (return_options : option pyval)
  | Op_search_many_or (search_filter : list pyval)
      (return_options : option pyval) (order_by : option (list (string * Z)))
  | Op_update_one_registry (search_filter properties : pyval)
      (query : option string)
  | Op_update_many_registries (search_filter properties : pyval)
      (query : option string)
  | Op_update_many_with_increment (search_filter : pyval)
      (key_and_number : list (string * pyval))
  | Op_delete_registry (search_filter : pyval)
  | Op_delete_many_registries (search_filter : pyval)
  | Op_create_new_index_ttl (time_metric : string) (time_to_live : Z)
      (name_index : string) (order_by : Z)
  | Op_create_new_index (index_dict : list (string * pyval)).

(** The decorator each method is defined under. *)
Inductive category := Insert | Select | Update | Delete | Index.

Definition category_of (op : operation) : category :=
  match op with
  | Op_insert_one_document _ | Op_insert_list_of_documents _ => Insert
  | Op_select_many_documents _ _ | Op_select_one_document _ _
  | Op_select_many_by_order _ _ _ | Op_select_by_object_id _ _
  | Op_search_many_or _ _ _ => Select
  | Op_update_one_registry _ _ _ | Op_update_many_registries _ _ _
  | Op_update_many_with_increment _ _ => Update
  | Op_delete_registry _ | Op_delete_many_registries _ => Delete
  | Op_create_new_index_ttl _ _ _ _ | Op_create_new_index _ => Index
  end.

(** What reaches the caller through the error channel. *)
Definition raised {A} (r : result A) : option exn :=
  match r with
  | Ret _ => None
  | Raise e => Some e
  end.

Definition outcome {Store A} (m : M Store A) (w : World Store)
  : option exn * World Store :=
  (raised (fst (m w)), snd (m w)).

Section Operations.

Context {Db Coll Store : Type}.
Variable drv : Driver Db Coll Store.
Variable object_id : string -> result pyval.
Variable overflow_text : Z -> string.

(** The method is called on [self]: the exception it raises, if any, and the
    world it leaves. *)
Definition run_operation (self : Repository) (op : operation)
  : World Store -> option exn * World Store :=
  match op with
  | Op_insert_one_document d => outcome (insert_one_document drv self d)
  | Op_insert_list_of_documents l =>
      outcome (insert_list_of_documents drv self l)
  | Op_select_many_documents f ro =>
      outcome (select_many_documents drv self f ro)
  | Op_select_one_document f ro => outcome (select_one_document drv self f ro)
  | Op_select_many_by_order f o ro =>
      outcome (select_many_by_order drv self f o ro)
  | Op_select_by_object_id i ro =>
      outcome (select_by_object_id drv object_id self i ro)
  | Op_search_many_or fs ro o => outcome (search_many_or drv self fs ro o)
  | Op_update_one_registry f p q =>
      outcome (update_one_registry drv self f p q)
  | Op_update_many_registries f p q =>
      outcome (update_many_registries drv self f p q)
  | Op_update_many_with_increment f kn =>
      outcome (update_many_with_increment drv self f kn)
  | Op_delete_registry f => outcome (delete_registry drv self f)
  | Op_delete_many_registries f => outcome (delete_many_registries drv self f)
  | Op_create_new_index_ttl m t n o =>
      outcome (create_new_index_ttl drv overflow_text self m t n o)
  | Op_create_new_index d => outcome (create_new_index drv self d)
  end.

End Operations.

(** ** The connection handler *)

Module Connection.

Section Handler.

Context {Client Db : Type}.

(** pymongo: the constructor [MongoClient], the item access [client[name]]
    that gives a database, and [client.close()]. *)
Variable MongoClient : string -> result Client.
Variable client_getitem : Client -> string -> result Db.
Variable client_close : Client -> result unit.

Record MongoConnectionHandler := {
  __connection_string : string;
  __db_name : string;
  __client : option Client;
  __db_connection : option Db
}.

Definition init (connection_string db_name : string)
  : MongoConnectionHandler :=
  {| __connection_string := connection_string;
     __db_name := db_name;
     __client := None;
     __db_connection := None |}.

(** The two [except] clauses of [connect], in their order. *)
Definition connect_except (self : MongoConnectionHandler) (e : exn) : exn :=
  if isinstance e ServerSelectionTimeoutError then
    mk_exn ServerSelectionTimeoutError
      ("TimeoutError while connecting to MongoDB." ++ nl ++
       "Unable to connect to the bank during the available timeout." ++ nl ++
       " Check the connection_string in your cluster infrastructure")
  else if isinstance e ConnectionFailure then
    mk_exn ConnectionFailure
      ("ConnectionFailure." ++ nl ++
       " Check your connection string and whether you have permission to access the"
       ++ __db_name self)
  else e.

(** [connect] assigns the client as soon as it is built and the database
    after it; an exception leaves the assignments made before it. *)
Definition connect (self : MongoConnectionHandler)
  : result unit * MongoConnectionHandler :=
  match MongoClient (__connection_string self) with
  | Raise e => (Raise (connect_except self e), self)
  | Ret client =>
      let self1 :=
        {| __connection_string := __connection_string self;
           __db_name := __db_name self;
           __client := Some client;
           __db_connection := __db_connection self |} in
      match client_getitem client (__db_name self) with
      | Raise e => (Raise (connect_except self1 e), self1)
      | Ret db =>
          (Ret tt,
           {| __connection_string := __connection_string self1;
              __db_name := __db_name self1;
              __client := __client self1;
              __db_connection := Some db |})
      end
  end.

Definition get_connection (self : MongoConnectionHandler) : option Db :=
  __db_connection self.

Definition get_client (self : MongoConnectionHandler) : option Client :=
  __client self.

Definition disconnect_from_mongodb (self : MongoConnectionHandler)
  : result unit :=
  match __client self with
  | Some client => client_close client
  | None =>
      Raise (mk_exn AttributeError
               "'NoneType' object has no attribute 'close'")
  end.

End Handler.

End Connection.

(** ** An in-memory store *)

(** A small store to run the repository on concrete inputs.  It answers the
    calls the examples below make: [find] of a filter of equalities and
    [$or] lists without projection or sort, [update_many] of an [$inc] of
    one field by an integer, and [create_index]; it refuses every other
    call.  A database handle is either authorized or not, and a collection
    handle is the collection's name. *)
Module MemStore.

Record mem_db := { authorized : bool }.

Record mem := {
  documents : list pyval;
  indexes : list (list (string * pyval) * option pyval)
}.

Fixpoint dict_get (items : list (string * pyval)) (key : string)
  : option pyval :=
  match items with
  | [] => None
  | (k, v) :: rest => if String.eqb k key then Some v else dict_get rest key
  end.

Fixpoint dict_set (items : list (string * pyval)) (key : string) (v : pyval)
  : list (string * pyval) :=
  match items with
  | [] => [(key, v)]
  | (k, v0) :: rest =>
      if String.eqb k key then (k, v) :: rest
      else (k, v0) :: dict_set rest key v
  end.

(** Equality of two scalar values, numbers compared by value. *)
Definition value_eqb (a b : pyval) : bool :=
  match a, b with
  | VNone, VNone => true
  | VBool x, VBool y => Bool.eqb x y
  | VInt x, VInt y => Z.eqb x y
  | VFloat x, VFloat y => Qeq_bool x y
  | VInt x, VFloat y | VFloat y, VInt x => Qeq_bool (inject_Z x) y
  | VStr x, VStr y => String.eqb x y
  | VObjectId x, VObjectId y => String.eqb x y
  | _, _ => false
  end.

(** A document matches a filter when it satisfies every condition of it: a
    condition [$or] asks that one filter of its list matches, and any other
    key that the document has the field with an equal value. *)
Fixpoint matches (filter doc : pyval) {struct filter} : bool :=
  match filter with
  | VDict conditions =>
      forallb
        (fun condition =>
           match condition with
           | (key, v) =>
               if String.eqb key "$or" then
                 match v with
                 | VList filters => existsb (fun f => matches f doc) filters
                 | _ => false
                 end
               else
                 match doc with
                 | VDict fields =>
                     match dict_get fields key with
                     | Some v' => value_eqb v v'
                     | None => false
                     end
                 | _ => false
                 end
           end)
        conditions
  | _ => false
  end.

(** The store rejects an [$or] that is not given a list with at least one
    filter. *)
Definition well_formed_condition (condition : string * pyval) : bool :=
  match condition with
  | (key, v) =>
      if String.eqb key "$or" then
        match v with
        | VList (_ :: _) => true
        | _ => false
        end
      else true
  end.

Definition well_formed_filter (filter : pyval) : bool :=
  match filter with
  | VDict conditions => forallb well_formed_condition conditions
  | _ => false
  end.

Definition refuse {A} (s : mem) : result A * mem :=
  (Raise (mk_exn InvalidOperation "call not supported by the in-memory store"),
   s).

Definition mem_find (filter : pyval) (projection : option pyval)
    (sort : option (list (string * Z))) (s : mem)
  : result (list pyval) * mem :=
  match projection, sort with
  | None, None =>
      if well_formed_filter filter then
        (Ret (List.filter (matches filter) (documents s)), s)
      else
        (Raise (mk_exn OperationFailure
                  "$and/$or/$nor must be a nonempty array"), s)
  | _, _ => refuse s
  end.

(** [$inc] of the field [key] by [n] on one document: a missing field is
    created, an integer field is incremented, any other field is an error. *)
Definition inc_document (key : string) (n : Z) (doc : pyval) : option pyval :=
  match doc with
  | VDict fields =>
      match dict_get fields key with
      | None => Some (VDict (fields ++ [(key, VInt n)]))
      | Some (VInt m) => Some (VDict (dict_set fields key (VInt (m + n))))
      | Some _ => None
      end
  | _ => None
  end.

(** The documents after the increment of every document that matches, and
    the number of documents it changed (an increment by zero changes none). *)
Fixpoint inc_all (filter : pyval) (key : string) (n : Z) (ds : list pyval)
  : option (list pyval * Z) :=
  match ds with
  | [] => Some ([], 0)
  | d :: rest =>
      match inc_all filter key n rest with
      | None => None
      | Some (rest', modified) =>
          if matches filter d then
            match inc_document key n d with
            | Some d' =>
                Some (d' :: rest', if n =? 0 then modified else modified + 1)
            | None => None
            end
          else Some (d :: rest', modified)
      end
  end.

Definition mem_update_many (filter update : pyval) (s : mem)
  : result Z * mem :=
  match update with
  | VDict [(operator, VDict [(key, VInt n)])] =>
      if String.eqb operator "$inc" && well_formed_filter filter then
        match inc_all filter key n (documents s) with
        | Some (ds, modified) =>
            (Ret modified, {| documents := ds; indexes := indexes s |})
        | None =>
            (Raise (mk_exn WriteError
                      "Cannot apply $inc to a value of non-numeric type"), s)
        end
      else refuse s
  | _ => refuse s
  end.

Definition mem_create_index (keys : list (string * pyval))
    (expireAfterSeconds : option pyval) (s : mem) : result unit * mem :=
  (Ret tt,
   {| documents := documents s;
      indexes := indexes s ++ [(keys, expireAfterSeconds)] |}).

Definition mem_call (collection : string) (c : call)
  : mem -> result (answer c) * mem :=
  match c return mem -> result (answer c) * mem with
  | Find filter projection sort => mem_find filter projection sort
  | UpdateMany filter update => mem_update_many filter update
  | CreateIndex keys expireAfterSeconds =>
      mem_create_index keys expireAfterSeconds
  | _ => refuse
  end.

Definition mem_get_collection (db : mem_db) (name : string) (s : mem)
  : result string :=
  if authorized db then Ret name
  else Raise (mk_exn OperationFailure "not authorized on the database").

Definition driver : Driver mem_db string mem :=
  {| drv_get_collection := mem_get_collection;
     drv_call := mem_call;
     drv_bulk_write_error := fun msg =>
       Ret (mk_exn BulkWriteError
              ("batch op errors occurred, full error: " ++ msg)) |}.

Definition object_id (s : string) : result pyval :=
  if Nat.eqb (String.length s) 24 then Ret (VObjectId (lower s))
  else Raise (mk_exn InvalidId
                (s ++ " is not a valid ObjectId, it must be a 12-byte input or a 24-character hex string")).

Definition overflow_text (seconds : Z) : string :=
  "days out of range; must have magnitude <= 999999999".

(** A client for the connection handler: the connection string ["down"]
    stands for a cluster that cannot be reached. *)
Definition MongoClient (connection_string : string) : result string :=
  if String.eqb connection_string "down" then
    Raise (mk_exn ServerSelectionTimeoutError "No servers found yet")
  else Ret connection_string.

Definition client_getitem (client : string) (name : string)
  : result mem_db :=
  if String.eqb name EmptyString then
    Raise (mk_exn InvalidName "database name cannot be the empty string")
  else Ret {| authorized := true |}.

End MemStore.

(** ** The texts of a resolution failure *)

(** The message [__get_collection] gives the [OperationFailure] it raises
    for a collection named [name], when the driver's own exception reads
    [text]. *)
Definition resolution_failure_text (name text : string) : string :=
  "Error trying to collect collection  '" ++ name ++ "':" ++ text ++ "," ++ nl
  ++ "Check the name of your collection, your permission or authentication".

(** The message the decorator of a category gives an [OperationFailure] it
    has caught with message [text]; the decorators of the two other
    categories build no message. *)
Definition rewrapped_text (c : category) (text : string) : string :=
  match c with
  | Insert =>
      "Error to insert a document " ++ text ++ nl ++
      "Check your permission to insert, your cluster infrastructure and your connection to the Bank."
  | Select =>
      "Error to find  the documents." ++ text ++ nl ++
      "Check your permission to select, your cluster infrastructure and your connection to the Bank."
  | Update =>
      "Error to update the documents:" ++ text ++ nl ++
      "Check your permission to update, your cluster infrastructure and your connection to the Bank. "
  | Delete | Index => text
  end.

(** ** The calls the two loops are expected to send *)

(** An item of a delta mapping whose value is an [int] or a [float]. *)
Definition numeric_item (kv : string * pyval) : Prop :=
  type_in_int_float (snd kv) = true.

(** The increment of one field: an [update_many] on the filter with the
    update document [{"$inc": {key: number}}]. *)
Definition inc_update (search_filter : pyval) (kv : string * pyval) : call :=
  UpdateMany search_filter (VDict [("$inc", VDict [(fst kv, snd kv)])]).

(** An item of an index mapping whose direction is accepted. *)
Definition valid_direction (kv : string * pyval) : Prop :=
  py_in_ints (snd kv) [-1; 1] = true.

(** The index on one key alone: a [create_index] with the key list
    [[(key, order)]] and no option. *)
Definition single_index (kv : string * pyval) : call :=
  CreateIndex [(fst kv, snd kv)] None.

(** ** Concrete inputs *)

Module Examples.

Import MemStore.

Definition users : @Repository mem_db :=
  Repository_init {| authorized := true |} "users".

Definition users_denied : @Repository mem_db :=
  Repository_init {| authorized := false |} "users".

Definition pedro : pyval :=
  VDict [("name", VStr "pedro"); ("age", VInt 30); ("visits", VInt 0)].

Definition maria : pyval :=
  VDict [("name", VStr "maria"); ("age", VInt 41); ("visits", VInt 7)].

Definition empty_world : World mem :=
  mk_world {| documents := []; indexes := [] |} [].

Definition two_people : World mem :=
  mk_world {| documents := [pedro; maria]; indexes := [] |} [].

(** A store that answers every call by raising [e], behind a driver that
    resolves every collection. *)
Definition failing_store (e : exn) : Driver unit unit unit :=
  {| drv_get_collection := fun _ _ _ => Ret tt;
     drv_call := fun _ c s => (Raise e, s);
     drv_bulk_write_error := fun msg => Ret (mk_exn BulkWriteError msg) |}.

Definition anywhere : @Repository unit := Repository_init tt "users".



Definition nothing : World unit := mk_world tt [].

End Examples.

(** ** The methods that make one call *)

(** Whether an [except] clause takes an exception depends on the class of
    the exception alone. *)
Definition catches_kind (classes : list exn_kind) (k : exn_kind) : bool :=
  existsb (issubclass k) classes.

(** For the methods whose body makes one call on the collection: that call,
    read off the body, with the default operator of the two updates written
    out.  The three other methods make a call per item, or none. *)
Definition single_call (op : operation) : option call :=
  match op with
  | Op_insert_one_document d => Some (InsertOne d)
  | Op_insert_list_of_documents l => Some (InsertMany l)
  | Op_select_many_documents f ro => Some (Find f ro None)
  | Op_select_one_document f ro => Some (FindOne f ro)
  | Op_select_many_by_order f o ro => Some (Find f ro (Some o))
  | Op_search_many_or fs ro o =>
      Some (Find (VDict [("$or", VList fs)]) ro o)
  | Op_update_one_registry f p q =>
      Some (UpdateOne f
              (VDict [(match q with Some q' => q' | None => "$set" end, p)]))
  | Op_update_many_registries f p q =>
      Some (UpdateMany f
              (VDict [(match q with Some q' => q' | None => "$set" end, p)]))
  | Op_delete_registry f => Some (DeleteOne f)
  | Op_delete_many_registries f => Some (DeleteMany f)
  | Op_select_by_object_id _ _ | Op_update_many_with_increment _ _
  | Op_create_new_index_ttl _ _ _ _ | Op_create_new_index _ => None
  end.

(** * Properties *)

(** ** Strings *)

Lemma length_append (a b : string) :
  String.length (a ++ b) = (String.length a + String.length b)%nat.
Proof.
  induction a as [|c a IH]; simpl; [reflexivity|].
  now rewrite IH.
Qed.

Lemma rewrapped_text_longer (c : category) (text : string) :
  c = Insert \/ c = Select \/ c = Update ->
  (String.length text < String.length (rewrapped_text c text))%nat.
Proof.
  intros [-> | [-> | ->]]; unfold rewrapped_text;
    repeat rewrite length_append; simpl; lia.
Qed.

(** ** The accessor and the decorators *)

Section Facts.

Context {Db Coll Store : Type}.
Variable drv : Driver Db Coll Store.
Variable object_id : string -> result pyval.
Variable overflow_text : Z -> string.

Lemma get_collection_resolves (self : @Repository Db) (w : World Store)
    (collection : Coll) :
  drv_get_collection drv (__db_connection self) (__collection_name self)
    (store w) = Ret collection ->
  __get_collection drv self w = (Ret collection, w).
Proof.
  intros H. unfold __get_collection, try_except. now rewrite H.
Qed.

Lemma get_collection_fails (self : @Repository Db) (w : World Store)
    (e0 : exn) :
  drv_get_collection drv (__db_connection self) (__collection_name self)
    (store w) = Raise e0 ->
  isinstance e0 OperationFailure = true ->
  __get_collection drv self w =
    (Raise (mk_exn OperationFailure
              (resolution_failure_text (__collection_name self) (exn_str e0))),
     w).
Proof.
  intros H Hk. unfold __get_collection, try_except. rewrite H.
  cbn [handle catches existsb]. rewrite Hk. reflexivity.
Qed.

(** Resolving the collection leaves the world as it is. *)
Lemma get_collection_world (self : @Repository Db) (w : World Store) :
  snd (__get_collection drv self w) = w.
Proof.
  unfold __get_collection, try_except.
  destruct (drv_get_collection drv _ _ (store w)); [reflexivity|].
  cbn [handle].
  destruct (catches [OperationFailure] e); reflexivity.
Qed.

(** A body that starts by resolving the collection stops there when the
    resolution fails. *)
Lemma bind_raise {A B} (m : M Store A) (k : A -> M Store B) (w w' : World Store)
    (e : exn) :
  m w = (Raise e, w') -> bind m k w = (Raise e, w').
Proof. intros H. unfold bind. now rewrite H. Qed.

Lemma bind_ret {A B} (m : M Store A) (k : A -> M Store B) (w w' : World Store)
    (a : A) :
  m w = (Ret a, w') -> bind m k w = k a w'.
Proof. intros H. unfold bind. now rewrite H. Qed.

Lemma insert_decorator_operation_failure {A} (func : M Store A)
    (w w' : World Store) (text : string) :
  func w = (Raise (mk_exn OperationFailure text), w') ->
  insert_exceptions_decorator drv func w =
    (Raise (mk_exn OperationFailure (rewrapped_text Insert text)), w').
Proof.
  intros H. unfold insert_exceptions_decorator, try_except. now rewrite H.
Qed.

Lemma select_decorator_operation_failure {A} (func : M Store A)
    (w w' : World Store) (text : string) :
  func w = (Raise (mk_exn OperationFailure text), w') ->
  select_exceptions_decorator drv func w =
    (Raise (mk_exn OperationFailure (rewrapped_text Select text)), w').
Proof.
  intros H. unfold select_exceptions_decorator, try_except. now rewrite H.
Qed.

Lemma update_decorator_operation_failure {A} (func : M Store A)
    (w w' : World Store) (text : string) :
  func w = (Raise (mk_exn OperationFailure text), w') ->
  update_exceptions_decorator drv func w =
    (Raise (mk_exn OperationFailure (rewrapped_text Update text)), w').
Proof.
  intros H. unfold update_exceptions_decorator, try_except. now rewrite H.
Qed.

(** A decorator hands on what the method returns, and an exception of a
    class none of its clauses names. *)
Lemma try_except_ret {A} (body : M Store A) clauses (w w' : World Store)
    (a : A) :
  body w = (Ret a, w') -> try_except body clauses w = (Ret a, w').
Proof. intros H. unfold try_except. now rewrite H. Qed.

Lemma try_except_raise {A} (body : M Store A) clauses (w w' : World Store)
    (e : exn) :
  body w = (Raise e, w') -> try_except body clauses w = handle clauses e w'.
Proof. intros H. unfold try_except. now rewrite H. Qed.

(** The handlers of the five decorators only raise: the world a decorated
    method leaves is the world its body leaves. *)
Lemma raise_same_type_world {A} (e : exn) (msg : string) (w : World Store) :
  snd (@raise_same_type Db Coll Store drv A e msg w) = w.
Proof.
  unfold raise_same_type.
  destruct (exn_type e); try reflexivity.
  destruct (drv_bulk_write_error drv msg); reflexivity.
Qed.

Ltac decorator_world :=
  unfold try_except; intros;
  match goal with
  | |- context [?f ?w] =>
      match type of (f w) with
      | (result _ * World _)%type =>
          destruct (f w) as [[? | e] ?]; [reflexivity|]
      end
  end;
  cbn [handle];
  repeat match goal with
         | |- context [catches ?cs ?e] => destruct (catches cs e)
         end;
  try reflexivity; try apply raise_same_type_world.

Lemma update_decorator_world {A} (func : M Store A) (w : World Store) :
  snd (update_exceptions_decorator drv func w) = snd (func w).
Proof. unfold update_exceptions_decorator. decorator_world. Qed.

Lemma index_decorator_world {A} (func : M Store A) (w : World Store) :
  snd (index_exceptions_decorator func w) = snd (func w).
Proof. unfold index_exceptions_decorator. decorator_world. Qed.

Lemma select_decorator_world {A} (func : M Store A) (w : World Store) :
  snd (select_exceptions_decorator drv func w) = snd (func w).
Proof. unfold select_exceptions_decorator. decorator_world. Qed.

(** C1, as amended.  When [__get_collection] fails with its
    [OperationFailure] inside an insert, select or update method, the
    decorator of the method catches that exception and raises an
    [OperationFailure] of its own: the caller receives the decorator's text
    around the accessor's message, which is a different message, and the
    world is left as it was. *)
Theorem resolution_failure_is_rewrapped (db : Db) (name : string)
    (op : operation) (w : World Store) (e0 : exn) :
  category_of op = Insert \/ category_of op = Select \/
    category_of op = Update ->
  drv_get_collection drv db name (store w) = Raise e0 ->
  isinstance e0 OperationFailure = true ->
  __get_collection drv (Repository_init db name) w =
    (Raise (mk_exn OperationFailure
              (resolution_failure_text name (exn_str e0))), w) /\
  run_operation drv object_id overflow_text (Repository_init db name) op w =
    (Some (mk_exn OperationFailure
             (rewrapped_text (category_of op)
                (resolution_failure_text name (exn_str e0)))), w) /\
  rewrapped_text (category_of op) (resolution_failure_text name (exn_str e0))
    <> resolution_failure_text name (exn_str e0).
Proof.
  intros Hcat Hdrv Hkind.
  pose proof (get_collection_fails (Repository_init db name) w e0 Hdrv Hkind)
    as Hacc.
  simpl __collection_name in Hacc.
  split; [exact Hacc|]. split.
  - destruct op; simpl category_of in *;
      try (exfalso; destruct Hcat as [H|[H|H]]; discriminate H);
      unfold run_operation, outcome, insert_one_document,
        insert_list_of_documents, select_many_documents, select_one_document,
        select_many_by_order, select_by_object_id, search_many_or,
        update_one_registry, update_many_registries,
        update_many_with_increment;
      first
        [ rewrite (insert_decorator_operation_failure _ w w _
                     (bind_raise _ _ w w _ Hacc))
        | rewrite (select_decorator_operation_failure _ w w _
                     (bind_raise _ _ w w _ Hacc))
        | rewrite (update_decorator_operation_failure _ w w _
                     (bind_raise _ _ w w _ Hacc)) ];
      reflexivity.
  - intros Heq.
    pose proof (rewrapped_text_longer (category_of op)
                  (resolution_failure_text name (exn_str e0)) Hcat) as Hlen.
    rewrite Heq in Hlen. lia.
Qed.

(** ** The loop of [update_many_with_increment] *)

Lemma increment_loop_runs (db : Db) (name : string) (collection : Coll)
    (search_filter : pyval) (items : list (string * pyval)) :
  forall (acc : Z) (w : World Store) (counts : list Z) (s' : Store),
    Forall numeric_item items ->
    replay drv collection (map (inc_update search_filter) items) (store w)
      = Some (counts, s') ->
    increment_loop drv (Repository_init db name) collection search_filter
      items acc w
    = (Ret (acc + sum_counts counts),
       mk_world s' (calls w ++ map (inc_update search_filter) items)).
Proof.
  induction items as [|[key number] rest IH]; intros acc w counts s' Hnum Hrep.
  - simpl in *. injection Hrep as <- <-. simpl.
    rewrite Z.add_0_r, app_nil_r. now destruct w.
  - inversion Hnum as [|? ? Hhead Htail]; subst.
    unfold numeric_item in Hhead. simpl in Hhead.
    simpl in Hrep. unfold inc_update at 1 in Hrep. simpl fst in Hrep.
    simpl snd in Hrep.
    cbn [increment_loop]. rewrite Hhead. cbn [negb].
    unfold bind, remote, increment_call. cbn [__increment_query Repository_init].
    destruct (drv_call drv collection
                (UpdateMany search_filter
                   (VDict [("$inc", VDict [(key, number)])])) (store w))
      as [[a|e] s1] eqn:Hcall; [|discriminate].
    destruct (replay drv collection (map (inc_update search_filter) rest) s1)
      as [[ns s2]|] eqn:Hrest; [|discriminate].
    injection Hrep as <- <-.
    rewrite (IH (acc + a) (mk_world s1 (calls w ++ [_])) ns s2 Htail Hrest).
    cbn [calls sum_counts fold_right count_of map].
    rewrite <- app_assoc. simpl app.
    unfold inc_update at 3. simpl fst. simpl snd.
    f_equal. f_equal. fold (sum_counts ns). lia.
Qed.

Lemma increment_loop_stops (db : Db) (name : string) (collection : Coll)
    (search_filter : pyval) (before : list (string * pyval)) (key : string)
    (number : pyval) (after : list (string * pyval)) :
  forall (acc : Z) (w : World Store) (counts : list Z) (s' : Store),
    Forall numeric_item before ->
    type_in_int_float number = false ->
    replay drv collection (map (inc_update search_filter) before) (store w)
      = Some (counts, s') ->
    increment_loop drv (Repository_init db name) collection search_filter
      (before ++ (key, number) :: after) acc w
    = (Raise (mk_exn ValueError
          "The value of increment/decrement must be only an int or a float!"),
       mk_world s' (calls w ++ map (inc_update search_filter) before)).
Proof.
  induction before as [|[k v] rest IH]; intros acc w counts s' Hnum Hbad Hrep.
  - simpl in *. injection Hrep as <- <-. rewrite Hbad. simpl.
    unfold raise. rewrite app_nil_r. now destruct w.
  - inversion Hnum as [|? ? Hhead Htail]; subst.
    unfold numeric_item in Hhead. simpl in Hhead.
    simpl in Hrep. unfold inc_update at 1 in Hrep. simpl fst in Hrep.
    simpl snd in Hrep.
    simpl app. cbn [increment_loop]. rewrite Hhead. cbn [negb].
    unfold bind, remote, increment_call. cbn [__increment_query Repository_init].
    destruct (drv_call drv collection
                (UpdateMany search_filter (VDict [("$inc", VDict [(k, v)])]))
                (store w))
      as [[a|e] s1] eqn:Hcall; [|discriminate].
    destruct (replay drv collection (map (inc_update search_filter) rest) s1)
      as [[ns s2]|] eqn:Hrest; [|discriminate].
    injection Hrep as <- <-.
    rewrite (IH (acc + a) (mk_world s1 (calls w ++ [_])) ns s2 Htail Hbad
               Hrest).
    cbn [calls map]. rewrite <- app_assoc. reflexivity.
Qed.

(** Whatever the store answers, the loop sends nothing but increments of
    items whose value is an [int] or a [float]. *)
Lemma increment_loop_sends (db : Db) (name : string) (collection : Coll)
    (search_filter : pyval) (items : list (string * pyval)) :
  forall (acc : Z) (w : World Store),
    exists sent : list call,
      calls (snd (increment_loop drv (Repository_init db name) collection
                    search_filter items acc w))
        = (calls w ++ sent)%list /\
      Forall (fun c => exists kv, In kv items /\ numeric_item kv /\
                                  c = inc_update search_filter kv) sent.
Proof.
  induction items as [|[key number] rest IH]; intros acc w.
  - exists []. simpl. rewrite app_nil_r. split; constructor.
  - cbn [increment_loop].
    destruct (type_in_int_float number) eqn:Hnum; cbn [negb].
    + unfold bind, remote, increment_call.
      cbn [__increment_query Repository_init].
      destruct (drv_call drv collection
                  (UpdateMany search_filter
                     (VDict [("$inc", VDict [(key, number)])])) (store w))
        as [[a|e] s1] eqn:Hcall.
      * destruct (IH (acc + a) (mk_world s1 (calls w ++
                   [UpdateMany search_filter
                      (VDict [("$inc", VDict [(key, number)])])])))
          as [sent [Hcalls Hall]].
        exists (UpdateMany search_filter
                  (VDict [("$inc", VDict [(key, number)])]) :: sent).
        split.
        -- rewrite Hcalls. cbn [calls]. now rewrite <- app_assoc.
        -- constructor.
           ++ exists (key, number). split; [now left|]. split; [exact Hnum|].
              reflexivity.
           ++ eapply Forall_impl; [|exact Hall].
              intros c [kv [Hin [Hk Hc]]]. exists kv.
              split; [now right|]. now split.
      * exists [UpdateMany search_filter
                  (VDict [("$inc", VDict [(key, number)])])].
        split; [reflexivity|].
        constructor; [|constructor].
        exists (key, number). split; [now left|]. split; [exact Hnum|].
        reflexivity.
    + exists []. unfold raise. simpl. rewrite app_nil_r. split; constructor.
Qed.

(** A value that is neither an [int] nor a [float] keeps the loop from
    returning. *)
Lemma increment_loop_never_returns (db : Db) (name : string)
    (collection : Coll) (search_filter : pyval)
    (items : list (string * pyval)) :
  Exists (fun kv => type_in_int_float (snd kv) = false) items ->
  forall (acc : Z) (w : World Store),
    exists e,
      fst (increment_loop drv (Repository_init db name) collection
             search_filter items acc w) = Raise e.
Proof.
  induction items as [|[key number] rest IH]; intros Hex acc w.
  - inversion Hex.
  - cbn [increment_loop].
    destruct (type_in_int_float number) eqn:Hnum; cbn [negb].
    + assert (Hrest : Exists (fun kv => type_in_int_float (snd kv) = false)
                        rest).
      { inversion Hex as [? ? Hhead|? ? Htail]; subst; [|exact Htail].
        simpl in Hhead. congruence. }
      unfold bind, remote.
      destruct (drv_call drv collection _ (store w)) as [[a|e] s1].
      * apply IH. exact Hrest.
      * now exists e.
    + eexists. reflexivity.
Qed.

Lemma replay_length (collection : Coll) (cs : list call) :
  forall (s s' : Store) (counts : list Z),
    replay drv collection cs s = Some (counts, s') ->
    List.length counts = List.length cs.
Proof.
  induction cs as [|c rest IH]; intros s s' counts H; simpl in H.
  - now injection H as <- <-.
  - destruct (drv_call drv collection c s) as [[a|e] s1]; [|discriminate].
    destruct (replay drv collection rest s1) as [[ns s2]|] eqn:Hrest;
      [|discriminate].
    injection H as <- <-. simpl. f_equal. eapply IH. exact Hrest.
Qed.

Lemma raise_same_type_raises {A} (e : exn) (msg : string) (w : World Store) :
  exists e', fst (@raise_same_type Db Coll Store drv A e msg w) = Raise e'.
Proof.
  unfold raise_same_type.
  destruct (exn_type e); try (eexists; reflexivity).
  destruct (drv_bulk_write_error drv msg); eexists; reflexivity.
Qed.

Lemma update_decorator_raises {A} (func : M Store A) (w : World Store)
    (e : exn) :
  fst (func w) = Raise e ->
  exists e', fst (update_exceptions_decorator drv func w) = Raise e'.
Proof.
  unfold update_exceptions_decorator, try_except.
  destruct (func w) as [[a|e0] w']; cbn [fst]; [discriminate|]. intros _.
  cbn [handle].
  repeat match goal with
         | |- context [catches ?cs ?x] => destruct (catches cs x)
         end;
  try (eexists; reflexivity); apply raise_same_type_raises.
Qed.

(** C5, as amended.  For a filter and a mapping whose values are all [int]s
    or [float]s,
    on a collection that resolves and a store that answers every update,
    [update_many_with_increment] sends one [update_many] per field, each on
    the same filter with the update [{"$inc": {field: delta}}], in the order
    of the mapping, and returns the sum of the modified counts the store
    reported, one per field.  In particular, when the mapping has two fields
    and the store reports one modified document for each of the two updates,
    it returns 2; that there is one document matching the filter when the
    method is called does not by itself make the store report so. *)
Theorem increment_returns_sum_of_counts (db : Db) (name : string)
    (search_filter : pyval) (key_and_number : list (string * pyval))
    (w : World Store) (collection : Coll) (counts : list Z) (s' : Store) :
  Forall numeric_item key_and_number ->
  drv_get_collection drv db name (store w) = Ret collection ->
  replay drv collection (map (inc_update search_filter) key_and_number)
    (store w) = Some (counts, s') ->
  update_many_with_increment drv (Repository_init db name) search_filter
    key_and_number w
  = (Ret (sum_counts counts),
     mk_world s' (calls w ++ map (inc_update search_filter) key_and_number))
  /\ List.length counts = List.length key_and_number
  /\ (forall a b : string * pyval,
        key_and_number = [a; b] -> counts = [1; 1] ->
        fst (update_many_with_increment drv (Repository_init db name)
               search_filter key_and_number w) = Ret 2).
Proof.
  intros Hnum Hcoll Hrep.
  assert (Hrun :
    update_many_with_increment drv (Repository_init db name) search_filter
      key_and_number w
    = (Ret (sum_counts counts),
       mk_world s' (calls w ++ map (inc_update search_filter) key_and_number))).
  { unfold update_many_with_increment, update_exceptions_decorator.
    apply try_except_ret.
    rewrite (bind_ret _ _ w w collection
               (get_collection_resolves (Repository_init db name) w collection
                  Hcoll)).
    rewrite (increment_loop_runs db name collection search_filter
               key_and_number 0 w counts s' Hnum Hrep).
    reflexivity. }
  split; [exact Hrun|]. split.
  - rewrite (replay_length _ _ _ _ _ Hrep). apply length_map.
  - intros a b _ Hcounts. rewrite Hrun. subst counts. reflexivity.
Qed.

(** C6, as amended.  When the loop of [update_many_with_increment] reaches
    the first value that is neither an [int] nor a [float], it raises the
    [ValueError] of the method, which the decorator hands on: by then one
    increment has been sent for each field before that value, and none is
    sent for its field or for any field after it. *)
Theorem increment_stops_at_first_non_numeric (db : Db) (name : string)
    (search_filter : pyval) (before : list (string * pyval)) (key : string)
    (number : pyval) (after : list (string * pyval)) (w : World Store)
    (collection : Coll) (counts : list Z) (s' : Store) :
  Forall numeric_item before ->
  type_in_int_float number = false ->
  drv_get_collection drv db name (store w) = Ret collection ->
  replay drv collection (map (inc_update search_filter) before) (store w)
    = Some (counts, s') ->
  update_many_with_increment drv (Repository_init db name) search_filter
    (before ++ (key, number) :: after) w
  = (Raise (mk_exn ValueError
       "The value of increment/decrement must be only an int or a float!"),
     mk_world s' (calls w ++ map (inc_update search_filter) before)).
Proof.
  intros Hnum Hbad Hcoll Hrep.
  unfold update_many_with_increment, update_exceptions_decorator.
  rewrite (try_except_raise _ _ w
             (mk_world s' (calls w ++ map (inc_update search_filter) before))
             (mk_exn ValueError
                "The value of increment/decrement must be only an int or a float!"));
    [reflexivity|].
  rewrite (bind_ret _ _ w w collection
             (get_collection_resolves (Repository_init db name) w collection
                Hcoll)).
  exact (increment_loop_stops db name collection search_filter before key
           number after 0 w counts s' Hnum Hbad Hrep).
Qed.

(** C10.  A mapping with a boolean value is never accepted by
    [update_many_with_increment]: the method does not return, every update
    it sends is an [$inc] of a value that is not a boolean, and when the
    loop reaches the boolean (the collection resolved, the store answered
    the increments before it) the method raises its [ValueError]. *)
Theorem increment_refuses_booleans (db : Db) (name : string)
    (search_filter : pyval) (key_and_number : list (string * pyval))
    (w : World Store) :
  Exists (fun kv => exists b, snd kv = VBool b) key_and_number ->
  (exists e,
     fst (update_many_with_increment drv (Repository_init db name)
            search_filter key_and_number w) = Raise e)
  /\ (exists sent : list call,
        calls (snd (update_many_with_increment drv (Repository_init db name)
                      search_filter key_and_number w))
          = (calls w ++ sent)%list /\
        Forall (fun c => exists key number,
                  c = UpdateMany search_filter
                        (VDict [("$inc", VDict [(key, number)])]) /\
                  forall b, number <> VBool b) sent)
  /\ (forall before key b after collection counts s',
        key_and_number = (before ++ (key, VBool b) :: after)%list ->
        Forall numeric_item before ->
        drv_get_collection drv db name (store w) = Ret collection ->
        replay drv collection (map (inc_update search_filter) before)
          (store w) = Some (counts, s') ->
        update_many_with_increment drv (Repository_init db name)
          search_filter key_and_number w
        = (Raise (mk_exn ValueError
             "The value of increment/decrement must be only an int or a float!"),
           mk_world s'
             (calls w ++ map (inc_update search_filter) before))).
Proof.
  intros Hbool.
  assert (Hbad : Exists (fun kv => type_in_int_float (snd kv) = false)
                   key_and_number).
  { eapply Exists_impl; [|exact Hbool]. intros kv [b ->]. reflexivity. }
  split; [|split].
  - unfold update_many_with_increment.
    destruct (__get_collection drv (Repository_init db name) w)
      as [[collection|e0] w0] eqn:Hacc.
    + destruct (increment_loop_never_returns db name collection search_filter
                  key_and_number Hbad 0 w0) as [e He].
      apply (update_decorator_raises _ w e).
      now rewrite (bind_ret _ _ w w0 collection Hacc).
    + apply (update_decorator_raises _ w e0).
      now rewrite (bind_raise _ _ w w0 e0 Hacc).
  - unfold update_many_with_increment. rewrite update_decorator_world.
    destruct (__get_collection drv (Repository_init db name) w)
      as [[collection|e0] w0] eqn:Hacc.
    + pose proof (get_collection_world (Repository_init db name) w) as Hw.
      rewrite Hacc in Hw. cbn [snd] in Hw. subst w0.
      rewrite (bind_ret _ _ w w collection Hacc).
      destruct (increment_loop_sends db name collection search_filter
                  key_and_number 0 w) as [sent [Hcalls Hall]].
      exists sent. split; [exact Hcalls|].
      eapply Forall_impl; [|exact Hall].
      intros c [[key number] [_ [Hnum ->]]].
      exists key, number. split; [reflexivity|].
      intros b ->. discriminate Hnum.
    + pose proof (get_collection_world (Repository_init db name) w) as Hw.
      rewrite Hacc in Hw. cbn [snd] in Hw. subst w0.
      rewrite (bind_raise _ _ w w e0 Hacc).
      exists []. split; [now rewrite app_nil_r|constructor].
  - intros before key b after collection counts s' -> Hnum Hcoll Hrep.
    unfold update_many_with_increment, update_exceptions_decorator.
    rewrite (try_except_raise _ _ w
               (mk_world s'
                  (calls w ++ map (inc_update search_filter) before))
               (mk_exn ValueError
                  "The value of increment/decrement must be only an int or a float!"));
      [reflexivity|].
    rewrite (bind_ret _ _ w w collection
               (get_collection_resolves (Repository_init db name) w collection
                  Hcoll)).
    exact (increment_loop_stops db name collection search_filter before key
             (VBool b) after 0 w counts s' Hnum eq_refl Hrep).
Qed.

(** ** The loop of [create_new_index] *)

Lemma index_loop_runs (collection : Coll) (items : list (string * pyval)) :
  forall (w : World Store) (counts : list Z) (s' : Store),
    Forall valid_direction items ->
    replay drv collection (map single_index items) (store w)
      = Some (counts, s') ->
    index_loop drv collection items w
    = (Ret tt, mk_world s' (calls w ++ map single_index items)).
Proof.
  induction items as [|[key order] rest IH]; intros w counts s' Hval Hrep.
  - simpl in *. injection Hrep as <- <-. unfold ret.
    rewrite app_nil_r. now destruct w.
  - inversion Hval as [|? ? Hhead Htail]; subst.
    unfold valid_direction in Hhead. cbn [snd] in Hhead.
    cbn [map replay] in Hrep. unfold single_index at 1 in Hrep.
    cbn [fst snd] in Hrep.
    cbn [index_loop]. rewrite Hhead. cbn [negb].
    unfold bind, remote.
    destruct (drv_call drv collection (CreateIndex [(key, order)] None)
                (store w)) as [[a|e] s1] eqn:Hcall; [|discriminate].
    destruct (replay drv collection (map single_index rest) s1)
      as [[ns s2]|] eqn:Hrest; [|discriminate].
    injection Hrep as <- <-.
    rewrite (IH (mk_world s1 (calls w ++ [_])) ns s2 Htail Hrest).
    cbn [calls map]. rewrite <- app_assoc. reflexivity.
Qed.

Lemma index_loop_stops (collection : Coll) (before : list (string * pyval))
    (key : string) (order : pyval) (after : list (string * pyval)) :
  forall (w : World Store) (counts : list Z) (s' : Store),
    Forall valid_direction before ->
    py_in_ints order [-1; 1] = false ->
    replay drv collection (map single_index before) (store w)
      = Some (counts, s') ->
    index_loop drv collection (before ++ (key, order) :: after) w
    = (Raise (mk_exn ValueError
                "Invalid order_by parameter. Please use either"),
       mk_world s' (calls w ++ map single_index before)).
Proof.
  induction before as [|[k o] rest IH]; intros w counts s' Hval Hbad Hrep.
  - simpl in Hrep. injection Hrep as <- <-.
    cbn [app index_loop]. rewrite Hbad. cbn [negb map]. unfold raise.
    rewrite app_nil_r. now destruct w.
  - inversion Hval as [|? ? Hhead Htail]; subst.
    unfold valid_direction in Hhead. cbn [snd] in Hhead.
    cbn [map replay] in Hrep. unfold single_index at 1 in Hrep.
    cbn [fst snd] in Hrep.
    cbn [app index_loop]. rewrite Hhead. cbn [negb].
    unfold bind, remote.
    destruct (drv_call drv collection (CreateIndex [(k, o)] None) (store w))
      as [[a|e] s1] eqn:Hcall; [|discriminate].
    destruct (replay drv collection (map single_index rest) s1)
      as [[ns s2]|] eqn:Hrest; [|discriminate].
    injection Hrep as <- <-.
    rewrite (IH (mk_world s1 (calls w ++ [_])) ns s2 Htail Hbad Hrest).
    cbn [calls map]. rewrite <- app_assoc. reflexivity.
Qed.

(** C3: what the code does.  For a mapping whose directions are all
    accepted, on a collection that resolves and a store that answers every
    call, [create_new_index] returns [True] after it has sent one
    [create_index] per key, each with that key alone in its key list; for a
    mapping of two keys or more this is not the single call with the whole
    key list that a compound index requires. *)
Theorem create_new_index_sends_one_index_per_key (db : Db) (name : string)
    (index_dict : list (string * pyval)) (w : World Store) (collection : Coll)
    (counts : list Z) (s' : Store) :
  Forall valid_direction index_dict ->
  drv_get_collection drv db name (store w) = Ret collection ->
  replay drv collection (map single_index index_dict) (store w)
    = Some (counts, s') ->
  create_new_index drv (Repository_init db name) index_dict w
  = (Ret true, mk_world s' (calls w ++ map single_index index_dict))
  /\ ((2 <= List.length index_dict)%nat ->
      map single_index index_dict <> [CreateIndex index_dict None]).
Proof.
  intros Hval Hcoll Hrep. split.
  - unfold create_new_index, index_exceptions_decorator.
    apply try_except_ret.
    rewrite (bind_ret _ _ w w collection
               (get_collection_resolves (Repository_init db name) w collection
                  Hcoll)).
    rewrite (bind_ret _ _ w _ tt
               (index_loop_runs collection index_dict w counts s' Hval Hrep)).
    reflexivity.
  - intros Hlen Heq.
    apply (f_equal (@List.length call)) in Heq.
    rewrite length_map in Heq. simpl in Heq. lia.
Qed.

(** C4, as amended.  When the loop of [create_new_index] reaches the first
    direction that is neither 1 nor -1, it raises the [ValueError] of the
    method, which the decorator hands on: no [create_index] is sent for that
    key or for any key after it, the calls that have reached the store by
    then being those of the keys before it. *)
Theorem create_new_index_stops_at_first_invalid_direction (db : Db)
    (name : string) (before : list (string * pyval)) (key : string)
    (order : pyval) (after : list (string * pyval)) (w : World Store)
    (collection : Coll) (counts : list Z) (s' : Store) :
  Forall valid_direction before ->
  py_in_ints order [-1; 1] = false ->
  drv_get_collection drv db name (store w) = Ret collection ->
  replay drv collection (map single_index before) (store w)
    = Some (counts, s') ->
  create_new_index drv (Repository_init db name)
    (before ++ (key, order) :: after) w
  = (Raise (mk_exn ValueError "Invalid order_by parameter. Please use either"),
     mk_world s' (calls w ++ map single_index before)).
Proof.
  intros Hval Hbad Hcoll Hrep.
  unfold create_new_index, index_exceptions_decorator.
  rewrite (try_except_raise _ _ w
             (mk_world s' (calls w ++ map single_index before))
             (mk_exn ValueError
                "Invalid order_by parameter. Please use either"));
    [reflexivity|].
  rewrite (bind_ret _ _ w w collection
             (get_collection_resolves (Repository_init db name) w collection
                Hcoll)).
  apply bind_raise.
  exact (index_loop_stops collection before key order after w counts s' Hval
           Hbad Hrep).
Qed.

(** ** [search_many_or] and [create_new_index_ttl] *)

(** The query [search_many_or] sends: one [find] whose filter is the dict
    [{"$or": search_filter}], with the return options and the order it was
    given. *)
Lemma search_many_or_sends_one_query (db : Db) (name : string)
    (search_filter : list pyval) (return_options : option pyval)
    (order_by : option (list (string * Z))) (w : World Store)
    (collection : Coll) (r : result (list pyval)) (s' : Store) :
  drv_get_collection drv db name (store w) = Ret collection ->
  drv_call drv collection
    (Find (VDict [("$or", VList search_filter)]) return_options order_by)
    (store w) = (r, s') ->
  snd (search_many_or drv (Repository_init db name) search_filter
         return_options order_by w)
  = mk_world s'
      (calls w ++
       [Find (VDict [("$or", VList search_filter)]) return_options order_by])
  /\ forall docs, r = Ret docs ->
       fst (search_many_or drv (Repository_init db name) search_filter
              return_options order_by w) = Ret docs.
Proof.
  intros Hcoll Hcall.
  assert (Hbody :
    forall k : list pyval -> M Store (list pyval),
      bind (__get_collection drv (Repository_init db name))
        (fun collection =>
           bind (remote drv collection
                   (Find (VDict [("$or", VList search_filter)])
                      return_options order_by)) k) w
      = match r with
        | Ret docs =>
            k docs
              (mk_world s'
                 (calls w ++
                  [Find (VDict [("$or", VList search_filter)]) return_options
                     order_by]))
        | Raise e =>
            (Raise e,
             mk_world s'
               (calls w ++
                [Find (VDict [("$or", VList search_filter)]) return_options
                   order_by]))
        end).
  { intros k.
    rewrite (bind_ret _ _ w w collection
               (get_collection_resolves (Repository_init db name) w collection
                  Hcoll)).
    unfold bind, remote. rewrite Hcall. now destruct r. }
  unfold search_many_or. rewrite select_decorator_world.
  cbn [__or_query Repository_init].
  destruct return_options as [ro|], order_by as [ob|];
    (split;
     [ rewrite Hbody; now destruct r
     | intros docs ->; unfold select_exceptions_decorator, try_except;
       rewrite Hbody; reflexivity ]).
Qed.

Lemma time_units_get_table (name : string) (unit_seconds : Z) :
  time_units_get name = Some unit_seconds ->
  In (name, unit_seconds)
    [("seconds", 1); ("minutes", 60); ("hours", 3600); ("days", 86400)].
Proof.
  unfold time_units_get.
  destruct (String.eqb_spec name "seconds") as [->|_];
    [intros [= <-]; simpl; auto|].
  destruct (String.eqb_spec name "minutes") as [->|_];
    [intros [= <-]; simpl; auto|].
  destruct (String.eqb_spec name "hours") as [->|_];
    [intros [= <-]; simpl; auto|].
  destruct (String.eqb_spec name "days") as [->|_];
    [intros [= <-]; simpl; auto 6|].
  discriminate.
Qed.

(** C9, as amended.  For a time unit the method supports (its name is
    looked up in lower case), a direction 1 or -1 and an integer magnitude
    whose product with the unit's length in seconds is within the range of
    [timedelta], on a collection that resolves, [create_new_index_ttl] sends
    one [create_index] on the field with that direction, whose
    [expireAfterSeconds] is exactly the magnitude times the unit's length
    in seconds (1, 60, 3600 or 86400), and returns [True] when the store
    accepts it. *)
Theorem ttl_index_expires_after_magnitude_times_unit (db : Db) (name : string)
    (time_metric : string) (time_to_live : Z) (name_index : string)
    (order_by : Z) (w : World Store) (collection : Coll) (unit_seconds : Z) :
  time_units_get (lower time_metric) = Some unit_seconds ->
  order_by = 1 \/ order_by = -1 ->
  timedelta_in_range (time_to_live * unit_seconds) = true ->
  drv_get_collection drv db name (store w) = Ret collection ->
  In (lower time_metric, unit_seconds)
    [("seconds", 1); ("minutes", 60); ("hours", 3600); ("days", 86400)]
  /\ calls (snd (create_new_index_ttl drv overflow_text
                   (Repository_init db name) time_metric time_to_live
                   name_index order_by w))
     = (calls w ++
        [CreateIndex [(name_index, VInt order_by)]
           (Some (VFloat (inject_Z (time_to_live * unit_seconds))))])%list
  /\ (forall s',
        drv_call drv collection
          (CreateIndex [(name_index, VInt order_by)]
             (Some (VFloat (inject_Z (time_to_live * unit_seconds)))))
          (store w) = (Ret tt, s') ->
        create_new_index_ttl drv overflow_text (Repository_init db name)
          time_metric time_to_live name_index order_by w
        = (Ret true,
           mk_world s'
             (calls w ++
              [CreateIndex [(name_index, VInt order_by)]
                 (Some (VFloat (inject_Z (time_to_live * unit_seconds))))]))).
Proof.
  intros Hunit Horder Hrange Hcoll.
  assert (Hord : (order_by =? 1) || (order_by =? -1) = true).
  { destruct Horder as [-> | ->]; reflexivity. }
  split; [now apply time_units_get_table|].
  assert (Hbody :
    bind (__get_collection drv (Repository_init db name))
      (fun collection =>
         match time_units_get (lower time_metric) with
         | Some index_time_life =>
             if (order_by =? 1) || (order_by =? -1) then
               bind (expire_after_seconds overflow_text time_to_live
                       index_time_life)
                 (fun expire_after_option =>
                    bind (remote drv collection
                            (CreateIndex [(name_index, VInt order_by)]
                               (Some expire_after_option)))
                      (fun _ => ret true))
             else
               raise (mk_exn ValueError
                 "Invalid order_by parameter. Please use either 1 (ascending) or -1 (descending).")
         | None =>
             raise (mk_exn ValueError
               "Invalid time metric. Please use one of: seconds, minutes, hours, days.")
         end) w
    = bind (remote drv collection
              (CreateIndex [(name_index, VInt order_by)]
                 (Some (VFloat (inject_Z (time_to_live * unit_seconds))))))
        (fun _ => ret true) w).
  { rewrite (bind_ret _ _ w w collection
               (get_collection_resolves (Repository_init db name) w collection
                  Hcoll)).
    rewrite Hunit, Hord.
    unfold expire_after_seconds. rewrite Hrange. reflexivity. }
  split.
  - unfold create_new_index_ttl. rewrite index_decorator_world.
    rewrite Hbody. unfold bind, remote.
    destruct (drv_call drv collection _ (store w)) as [[a|e] s1];
      reflexivity.
  - intros s' Hcall.
    unfold create_new_index_ttl, index_exceptions_decorator.
    apply try_except_ret.
    rewrite Hbody. unfold bind, remote. rewrite Hcall. reflexivity.
Qed.

End Facts.

(** ** The connection handler *)

Lemma timeout_is_connection_failure (e : exn) :
  isinstance e ServerSelectionTimeoutError = true ->
  isinstance e ConnectionFailure = true.
Proof.
  unfold isinstance. destruct (exn_type e); vm_compute; intros; congruence.
Qed.

Section ConnectionFacts.

Context {Client Db : Type}.
Variable MongoClient : string -> result Client.
Variable client_getitem : Client -> string -> result Db.


End ConnectionFacts.

(** ** Remote failures under the decorators *)

(** C2: what the code does.  A [ConfigurationError] raised by the store
    during a select leaves [select_many_documents] as a [TypeError], since
    the clause raises a string; and an exception of any class the second
    and third clauses of the delete decorator name leaves [delete_registry]
    as a [TypeError], since the clauses call the exception object.  Neither
    is the class of the exception that was caught. *)
Theorem select_and_delete_decorators_raise_type_error (text : string)
    (search_filter : pyval) (return_options : option pyval) :
  select_many_documents
    (Examples.failing_store (mk_exn ConfigurationError text))
    Examples.anywhere search_filter return_options Examples.nothing
  = (Raise (mk_exn TypeError "exceptions must derive from BaseException"),
     mk_world tt [Find search_filter return_options None])
  /\ Forall
       (fun k =>
          delete_registry (Examples.failing_store (mk_exn k text))
            Examples.anywhere search_filter Examples.nothing
          = (Raise (mk_exn TypeError
                      ("'" ++ kind_name k ++ "' object is not callable")),
             mk_world tt [DeleteOne search_filter]))
       [CursorNotFound; OperationFailure; WriteConcernError; InvalidOperation;
        ConfigurationError; BulkWriteError].
Proof.
  split.
  - destruct return_options; reflexivity.
  - repeat constructor.
Qed.

(** ** One [$or] query *)

(** C8.  For a non-empty list of filters, on a collection that resolves,
    [search_many_or] sends exactly one query, a [find] whose filter is
    [{"$or": [f1, ..., fn]}] with the return options and the order given,
    and returns the documents the store yields for it; on the in-memory
    store these are exactly the documents that match at least one of the
    filters. *)
Theorem search_many_or_is_one_or_query (search_filter : list pyval) :
  search_filter <> [] ->
  (forall (Db Coll Store : Type) (drv : Driver Db Coll Store) (db : Db)
          (name : string) (return_options : option pyval)
          (order_by : option (list (string * Z))) (w : World Store)
          (collection : Coll) (docs : list pyval) (s' : Store),
      drv_get_collection drv db name (store w) = Ret collection ->
      drv_call drv collection
        (Find (VDict [("$or", VList search_filter)]) return_options order_by)
        (store w) = (Ret docs, s') ->
      search_many_or drv (Repository_init db name) search_filter
        return_options order_by w
      = (Ret docs,
         mk_world s'
           (calls w ++
            [Find (VDict [("$or", VList search_filter)]) return_options
               order_by])))
  /\ (forall (name : string) (ds : list pyval)
             (ix : list (list (string * pyval) * option pyval))
             (cs : list call),
        search_many_or MemStore.driver
          (Repository_init {| MemStore.authorized := true |} name)
          search_filter None None
          (mk_world {| MemStore.documents := ds; MemStore.indexes := ix |} cs)
        = (Ret (List.filter
                  (fun d =>
                     existsb (fun f => MemStore.matches f d) search_filter)
                  ds),
           mk_world {| MemStore.documents := ds; MemStore.indexes := ix |}
             (cs ++ [Find (VDict [("$or", VList search_filter)]) None None]))).
Proof.
  intros Hne.
  assert (Hgen :
    forall (Db Coll Store : Type) (drv : Driver Db Coll Store) (db : Db)
           (name : string) (return_options : option pyval)
           (order_by : option (list (string * Z))) (w : World Store)
           (collection : Coll) (docs : list pyval) (s' : Store),
      drv_get_collection drv db name (store w) = Ret collection ->
      drv_call drv collection
        (Find (VDict [("$or", VList search_filter)]) return_options order_by)
        (store w) = (Ret docs, s') ->
      search_many_or drv (Repository_init db name) search_filter
        return_options order_by w
      = (Ret docs,
         mk_world s'
           (calls w ++
            [Find (VDict [("$or", VList search_filter)]) return_options
               order_by]))).
  { intros Db Coll Store drv db name ro ob w collection docs s' Hcoll Hcall.
    destruct (search_many_or_sends_one_query drv db name search_filter ro ob w
                collection (Ret docs) s' Hcoll Hcall) as [Hsnd Hfst].
    specialize (Hfst docs eq_refl).
    destruct (search_many_or drv (Repository_init db name) search_filter ro ob
                w) as [r w'].
    cbn [fst snd] in *. now subst. }
  split; [exact Hgen|].
  intros name ds ix cs.
  apply (Hgen _ _ _ MemStore.driver {| MemStore.authorized := true |} name
           None None
           (mk_world {| MemStore.documents := ds; MemStore.indexes := ix |} cs)
           name
           (List.filter
              (fun d => existsb (fun f => MemStore.matches f d) search_filter)
              ds)
           {| MemStore.documents := ds; MemStore.indexes := ix |});
    [reflexivity|].
  destruct search_filter as [|f fs]; [contradiction|].
  cbn [drv_call MemStore.driver MemStore.mem_call MemStore.mem_find store].
  assert (Hwf : MemStore.well_formed_filter
                  (VDict [("$or", VList (f :: fs))]) = true) by reflexivity.
  rewrite Hwf. f_equal. f_equal.
  apply filter_ext. intros d.
  cbn [MemStore.matches forallb MemStore.documents].
  assert (Heqb : String.eqb "$or" "$or" = true) by reflexivity.
  rewrite Heqb. apply andb_true_r.
Qed.

(** * The properties on concrete inputs *)

(** ** A collection that does not resolve *)

(** C1 fails as stated: [insert_one_document] on a database that refuses
    the collection raises an exception that is not the one the accessor
    raised. *)
Lemma resolution_failure_does_not_propagate_raw :
  exists e : exn,
    fst (__get_collection MemStore.driver Examples.users_denied
           Examples.empty_world) = Raise e /\
    fst (insert_one_document MemStore.driver Examples.users_denied
           Examples.pedro Examples.empty_world) <> Raise e.
Proof.
  eexists. split; [reflexivity|].
  vm_compute. discriminate.
Qed.

(** C1, as amended, on [insert_one_document] and a database that refuses
    the collection. *)
Lemma resolution_failure_is_rewrapped_witness :
  run_operation MemStore.driver MemStore.object_id MemStore.overflow_text
    Examples.users_denied (Op_insert_one_document Examples.pedro)
    Examples.empty_world
  = (Some (mk_exn OperationFailure
             (rewrapped_text Insert
                (resolution_failure_text "users"
                   "not authorized on the database"))),
     Examples.empty_world).
Proof.
  exact (proj1 (proj2
    (resolution_failure_is_rewrapped MemStore.driver MemStore.object_id
       MemStore.overflow_text {| MemStore.authorized := false |} "users"
       (Op_insert_one_document Examples.pedro) Examples.empty_world
       (mk_exn OperationFailure "not authorized on the database")
       (or_introl eq_refl) eq_refl eq_refl))).
Defined.

(** ** Index mappings *)

(** C3 on the mapping [{"name": -1, "age": 1}]: two indexes of one key
    each, not one index on the two keys. *)
Lemma create_new_index_sends_one_index_per_key_witness :
  create_new_index MemStore.driver Examples.users
    [("name", VInt (-1)); ("age", VInt 1)] Examples.empty_world
  = (Ret true,
     mk_world
       {| MemStore.documents := [];
          MemStore.indexes :=
            [([("name", VInt (-1))], None); ([("age", VInt 1)], None)] |}
       [CreateIndex [("name", VInt (-1))] None;
        CreateIndex [("age", VInt 1)] None])
  /\ [CreateIndex [("name", VInt (-1))] None;
      CreateIndex [("age", VInt 1)] None]
     <> [CreateIndex [("name", VInt (-1)); ("age", VInt 1)] None].
Proof.
  assert (Hval : Forall valid_direction [("name", VInt (-1)); ("age", VInt 1)])
    by (repeat constructor).
  destruct (create_new_index_sends_one_index_per_key MemStore.driver
              {| MemStore.authorized := true |} "users"
              [("name", VInt (-1)); ("age", VInt 1)] Examples.empty_world
              "users" [0; 0]
              {| MemStore.documents := [];
                 MemStore.indexes :=
                   [([("name", VInt (-1))], None);
                    ([("age", VInt 1)], None)] |}
              Hval eq_refl eq_refl) as [Hrun Hdiff].
  split; [exact Hrun|].
  apply Hdiff. simpl. lia.
Defined.

(** C4 fails as stated: with the mapping [{"a": 1, "b": 2}] the method
    raises its [ValueError] after the index on ["a"] has reached the
    store. *)
Lemma invalid_direction_after_a_valid_key_reaches_the_store :
  create_new_index MemStore.driver Examples.users
    [("a", VInt 1); ("b", VInt 2)] Examples.empty_world
  = (Raise (mk_exn ValueError "Invalid order_by parameter. Please use either"),
     mk_world
       {| MemStore.documents := [];
          MemStore.indexes := [([("a", VInt 1)], None)] |}
       [CreateIndex [("a", VInt 1)] None])
  /\ calls (snd (create_new_index MemStore.driver Examples.users
                   [("a", VInt 1); ("b", VInt 2)] Examples.empty_world))
     <> calls Examples.empty_world.
Proof.
  split; [reflexivity|]. vm_compute. discriminate.
Qed.

(** C4, as amended, on the mapping [{"a": 1, "b": 2, "c": -1}]. *)
Lemma create_new_index_stops_at_first_invalid_direction_witness :
  create_new_index MemStore.driver Examples.users
    ([("a", VInt 1)] ++ ("b", VInt 2) :: [("c", VInt (-1))])
    Examples.empty_world
  = (Raise (mk_exn ValueError "Invalid order_by parameter. Please use either"),
     mk_world
       {| MemStore.documents := [];
          MemStore.indexes := [([("a", VInt 1)], None)] |}
       (calls Examples.empty_world ++ map single_index [("a", VInt 1)])).
Proof.
  assert (Hval : Forall valid_direction [("a", VInt 1)])
    by (repeat constructor).
  exact (create_new_index_stops_at_first_invalid_direction MemStore.driver
           {| MemStore.authorized := true |} "users" [("a", VInt 1)] "b"
           (VInt 2) [("c", VInt (-1))] Examples.empty_world "users" [0]
           {| MemStore.documents := [];
              MemStore.indexes := [([("a", VInt 1)], None)] |}
           Hval eq_refl eq_refl eq_refl).
Defined.

(** ** Increments *)

(** C5 on a store where one document matches the filter: the two
    increments change that one document and the method returns 2. *)
Lemma increment_returns_sum_of_counts_witness :
  update_many_with_increment MemStore.driver Examples.users
    (VDict [("name", VStr "pedro")]) [("age", VInt 1); ("visits", VInt 2)]
    Examples.two_people
  = (Ret 2,
     mk_world
       {| MemStore.documents :=
            [VDict [("name", VStr "pedro"); ("age", VInt 31);
                    ("visits", VInt 2)];
             Examples.maria];
          MemStore.indexes := [] |}
       [UpdateMany (VDict [("name", VStr "pedro")])
          (VDict [("$inc", VDict [("age", VInt 1)])]);
        UpdateMany (VDict [("name", VStr "pedro")])
          (VDict [("$inc", VDict [("visits", VInt 2)])])]).
Proof.
  assert (Hnum : Forall numeric_item [("age", VInt 1); ("visits", VInt 2)])
    by (repeat constructor).
  exact (proj1
    (increment_returns_sum_of_counts MemStore.driver
       {| MemStore.authorized := true |} "users"
       (VDict [("name", VStr "pedro")]) [("age", VInt 1); ("visits", VInt 2)]
       Examples.two_people "users" [1; 1]
       {| MemStore.documents :=
            [VDict [("name", VStr "pedro"); ("age", VInt 31);
                    ("visits", VInt 2)];
             Examples.maria];
          MemStore.indexes := [] |}
       Hnum eq_refl eq_refl)).
Defined.

(** C6 fails as stated: with the mapping [{"age": 1, "visits": "x"}] the
    method raises its [ValueError] after the increment of ["age"] has
    reached the store and changed the document. *)
Lemma non_numeric_delta_after_a_numeric_one_reaches_the_store :
  update_many_with_increment MemStore.driver Examples.users
    (VDict [("name", VStr "pedro")])
    [("age", VInt 1); ("visits", VStr "x")] Examples.two_people
  = (Raise (mk_exn ValueError
       "The value of increment/decrement must be only an int or a float!"),
     mk_world
       {| MemStore.documents :=
            [VDict [("name", VStr "pedro"); ("age", VInt 31);
                    ("visits", VInt 0)];
             Examples.maria];
          MemStore.indexes := [] |}
       [UpdateMany (VDict [("name", VStr "pedro")])
          (VDict [("$inc", VDict [("age", VInt 1)])])])
  /\ calls (snd (update_many_with_increment MemStore.driver Examples.users
                   (VDict [("name", VStr "pedro")])
                   [("age", VInt 1); ("visits", VStr "x")]
                   Examples.two_people))
     <> calls Examples.two_people.
Proof.
  split; [reflexivity|]. vm_compute. discriminate.
Qed.

(** C6, as amended, on the mapping [{"age": 1, "visits": "x"}]. *)
Lemma increment_stops_at_first_non_numeric_witness :
  update_many_with_increment MemStore.driver Examples.users
    (VDict [("name", VStr "pedro")])
    ([("age", VInt 1)] ++ ("visits", VStr "x") :: [])
    Examples.two_people
  = (Raise (mk_exn ValueError
       "The value of increment/decrement must be only an int or a float!"),
     mk_world
       {| MemStore.documents :=
            [VDict [("name", VStr "pedro"); ("age", VInt 31);
                    ("visits", VInt 0)];
             Examples.maria];
          MemStore.indexes := [] |}
       (calls Examples.two_people ++
        map (inc_update (VDict [("name", VStr "pedro")])) [("age", VInt 1)])).
Proof.
  assert (Hnum : Forall numeric_item [("age", VInt 1)])
    by (repeat constructor).
  exact (increment_stops_at_first_non_numeric MemStore.driver
           {| MemStore.authorized := true |} "users"
           (VDict [("name", VStr "pedro")]) [("age", VInt 1)] "visits"
           (VStr "x") [] Examples.two_people "users" [1]
           {| MemStore.documents :=
                [VDict [("name", VStr "pedro"); ("age", VInt 31);
                        ("visits", VInt 0)];
                 Examples.maria];
              MemStore.indexes := [] |}
           Hnum eq_refl eq_refl eq_refl).
Defined.

(** C10 on the mapping [{"age": 1, "visits": True}]. *)
Lemma increment_refuses_booleans_witness :
  exists e : exn,
    fst (update_many_with_increment MemStore.driver Examples.users
           (VDict [("name", VStr "pedro")])
           [("age", VInt 1); ("visits", VBool true)] Examples.two_people)
    = Raise e.
Proof.
  assert (Hbool : Exists (fun kv : string * pyval => exists b, snd kv = VBool b)
                    [("age", VInt 1); ("visits", VBool true)]).
  { apply Exists_cons_tl. apply Exists_cons_hd. now exists true. }
  exact (proj1
    (increment_refuses_booleans MemStore.driver
       {| MemStore.authorized := true |} "users"
       (VDict [("name", VStr "pedro")])
       [("age", VInt 1); ("visits", VBool true)] Examples.two_people Hbool)).
Defined.

(** ** Time to live *)

(** C9 fails as stated: a magnitude of 1000000000 days is beyond what a
    [timedelta] holds, the method raises [OverflowError] and no index is
    created. *)
Lemma ttl_magnitude_beyond_timedelta_creates_no_index :
  create_new_index_ttl MemStore.driver MemStore.overflow_text Examples.users
    "days" 1000000000 "expiresAt" 1 Examples.empty_world
  = (Raise (mk_exn OverflowError
              (MemStore.overflow_text (1000000000 * 86400))),
     Examples.empty_world).
Proof. reflexivity. Qed.

(** C9, as amended, on five minutes: the index expires after 300 seconds. *)
Lemma ttl_index_expires_after_magnitude_times_unit_witness :
  create_new_index_ttl MemStore.driver MemStore.overflow_text Examples.users
    "minutes" 5 "expiresAt" 1 Examples.empty_world
  = (Ret true,
     mk_world
       {| MemStore.documents := [];
          MemStore.indexes :=
            [([("expiresAt", VInt 1)], Some (VFloat (inject_Z 300)))] |}
       [CreateIndex [("expiresAt", VInt 1)] (Some (VFloat (inject_Z 300)))]).
Proof.
  exact (proj2 (proj2
    (ttl_index_expires_after_magnitude_times_unit MemStore.driver
       MemStore.overflow_text {| MemStore.authorized := true |} "users"
       "minutes" 5 "expiresAt" 1 Examples.empty_world "users" 60
       eq_refl (or_introl eq_refl) eq_refl eq_refl))
    {| MemStore.documents := [];
       MemStore.indexes :=
         [([("expiresAt", VInt 1)], Some (VFloat (inject_Z 300)))] |}
    eq_refl).
Defined.

(** ** Queries and connections *)

(** C8 on two filters, each matched by one of the two documents. *)
Lemma search_many_or_is_one_or_query_witness :
  search_many_or MemStore.driver Examples.users
    [VDict [("name", VStr "pedro")]; VDict [("age", VInt 41)]] None None
    Examples.two_people
  = (Ret [Examples.pedro; Examples.maria],
     mk_world
       {| MemStore.documents := [Examples.pedro; Examples.maria];
          MemStore.indexes := [] |}
       [Find
          (VDict [("$or", VList [VDict [("name", VStr "pedro")];
                                 VDict [("age", VInt 41)]])])
          None None]).
Proof.
  assert (Hne : [VDict [("name", VStr "pedro")]; VDict [("age", VInt 41)]]
                <> []) by discriminate.
  exact (proj2
    (search_many_or_is_one_or_query
       [VDict [("name", VStr "pedro")]; VDict [("age", VInt 41)]] Hne)
    "users" [Examples.pedro; Examples.maria] [] []).
Defined.


(** * Further properties of the repository and of the handler *)

(** ** What the decorators do with an exception *)

Lemma catches_by_kind (classes : list exn_kind) (e : exn) :
  catches classes e = catches_kind classes (exn_type e).
Proof. reflexivity. Qed.

Section Decorators.

Context {Db Coll Store : Type}.
Variable drv : Driver Db Coll Store.

Lemma raise_same_type_result {A} (e : exn) (msg : string) (w : World Store) :
  exists e', @raise_same_type Db Coll Store drv A e msg w = (Raise e', w).
Proof.
  unfold raise_same_type.
  destruct (exn_type e); try (eexists; reflexivity).
  destruct (drv_bulk_write_error drv msg); eexists; reflexivity.
Qed.

Ltac handler_raises H :=
  rewrite (try_except_raise _ _ _ _ _ H); cbn [handle];
  repeat match goal with
         | |- context [catches ?cs ?x] => destruct (catches cs x)
         end;
  try (eexists; reflexivity); apply raise_same_type_result.

Lemma insert_decorator_raises {A} (func : M Store A) (w w' : World Store)
    (e : exn) :
  func w = (Raise e, w') ->
  exists e', insert_exceptions_decorator drv func w = (Raise e', w').
Proof. intros H. unfold insert_exceptions_decorator. handler_raises H. Qed.

Lemma select_decorator_raises {A} (func : M Store A) (w w' : World Store)
    (e : exn) :
  func w = (Raise e, w') ->
  exists e', select_exceptions_decorator drv func w = (Raise e', w').
Proof. intros H. unfold select_exceptions_decorator. handler_raises H. Qed.

Lemma update_decorator_raises_in_place {A} (func : M Store A)
    (w w' : World Store) (e : exn) :
  func w = (Raise e, w') ->
  exists e', update_exceptions_decorator drv func w = (Raise e', w').
Proof. intros H. unfold update_exceptions_decorator. handler_raises H. Qed.

Lemma delete_decorator_raises {A} (func : M Store A) (w w' : World Store)
    (e : exn) :
  func w = (Raise e, w') ->
  exists e', delete_exceptions_decorator func w = (Raise e', w').
Proof. intros H. unfold delete_exceptions_decorator. handler_raises H. Qed.

Lemma index_decorator_raises {A} (func : M Store A) (w w' : World Store)
    (e : exn) :
  func w = (Raise e, w') ->
  exists e', index_exceptions_decorator func w = (Raise e', w').
Proof. intros H. unfold index_exceptions_decorator. handler_raises H. Qed.

(** The accessor either resolves the collection or raises, and leaves the
    world as it is either way. *)
Lemma get_collection_raises (self : @Repository Db) (w : World Store)
    (e0 : exn) :
  drv_get_collection drv (__db_connection self) (__collection_name self)
    (store w) = Raise e0 ->
  exists e, __get_collection drv self w = (Raise e, w).
Proof.
  intros H. unfold __get_collection, try_except. rewrite H. cbn [handle].
  destruct (catches [OperationFailure] e0); eexists; reflexivity.
Qed.

End Decorators.

Section Coverage.

Context {Db Coll Store : Type}.
Variable drv : Driver Db Coll Store.
Variable object_id : string -> result pyval.
Variable overflow_text : Z -> string.

(** Decide each [except] clause for an exception whose class is known. *)
Ltac decide_clauses :=
  cbn [handle];
  repeat match goal with
         | |- context [catches ?cs ?x] =>
             rewrite (catches_by_kind cs x); cbn [exn_type];
             match goal with
             | |- context [catches_kind cs ?k] =>
                 let b := eval vm_compute in (catches_kind cs k) in
                 change (catches_kind cs k) with b
             end
         end;
  cbv beta iota.

Ltac each_class Hin :=
  cbn [In] in Hin;
  repeat (destruct Hin as [<- | Hin]); [.. | contradiction].

(** X1.  When the collection does not resolve, whatever the driver raised,
    no method of the repository makes a call on the store or changes it:
    the method raises and the world is as it was. *)
Theorem unresolved_collection_reaches_no_store (db : Db) (name : string)
    (op : operation) (w : World Store) (e0 : exn) :
  drv_get_collection drv db name (store w) = Raise e0 ->
  exists e,
    run_operation drv object_id overflow_text (Repository_init db name) op w
    = (Some e, w).
Proof.
  intros Hdrv.
  destruct (get_collection_raises drv (Repository_init db name) w e0 Hdrv)
    as [e1 Hacc].
  destruct op;
    unfold run_operation, outcome, insert_one_document,
      insert_list_of_documents, select_many_documents, select_one_document,
      select_many_by_order, select_by_object_id, search_many_or,
      update_one_registry, update_many_registries, update_many_with_increment,
      delete_registry, delete_many_registries, create_new_index_ttl,
      create_new_index;
    match goal with
    | |- context [insert_exceptions_decorator drv ?f w] =>
        destruct (insert_decorator_raises drv f w w e1
                    (bind_raise _ _ w w e1 Hacc)) as [e' He']
    | |- context [select_exceptions_decorator drv ?f w] =>
        destruct (select_decorator_raises drv f w w e1
                    (bind_raise _ _ w w e1 Hacc)) as [e' He']
    | |- context [update_exceptions_decorator drv ?f w] =>
        destruct (update_decorator_raises_in_place drv f w w e1
                    (bind_raise _ _ w w e1 Hacc)) as [e' He']
    | |- context [delete_exceptions_decorator ?f w] =>
        destruct (delete_decorator_raises f w w e1
                    (bind_raise _ _ w w e1 Hacc)) as [e' He']
    | |- context [index_exceptions_decorator ?f w] =>
        destruct (index_decorator_raises f w w e1
                    (bind_raise _ _ w w e1 Hacc)) as [e' He']
    end;
    rewrite He'; exists e'; reflexivity.
Qed.

(** X2.  What [__get_collection] raises is never of a proper subclass of
    [OperationFailure]: an exception of the driver that is an
    [OperationFailure] of any class is replaced by a plain
    [OperationFailure] whose text holds the collection's name and the
    driver's text, and any other exception goes on unchanged. *)
Theorem accessor_flattens_operation_failures (self : @Repository Db)
    (w : World Store) (e0 : exn) :
  drv_get_collection drv (__db_connection self) (__collection_name self)
    (store w) = Raise e0 ->
  exists e,
    __get_collection drv self w = (Raise e, w) /\
    (isinstance e0 OperationFailure = true ->
       exn_type e = OperationFailure /\
       exists before between after,
         exn_str e
         = before ++ __collection_name self ++ between ++ exn_str e0 ++ after)
    /\ (isinstance e0 OperationFailure = false -> e = e0)
    /\ (isinstance e OperationFailure = true -> exn_type e = OperationFailure).
Proof.
  intros H. unfold __get_collection, try_except. rewrite H. cbn [handle].
  unfold catches. cbn [existsb]. rewrite orb_false_r.
  destruct (isinstance e0 OperationFailure) eqn:Hk.
  - eexists. split; [reflexivity|]. split; [|split].
    + intros _. split; [reflexivity|]. cbn [exn_str].
      do 3 eexists. reflexivity.
    + discriminate.
    + reflexivity.
  - exists e0. split; [reflexivity|]. split; [discriminate|].
    split; [reflexivity|]. congruence.
Qed.

(** X3.  The insert and the update decorator keep the class of every
    exception they are given, [BulkWriteError] apart (its constructor takes
    no message): the exception raised is the one given, or one of the same
    class whose text holds the text of the one given. *)
Theorem insert_and_update_decorators_keep_the_class {A} (func : M Store A)
    (w w' : World Store) (e : exn) :
  func w = (Raise e, w') ->
  exn_type e <> BulkWriteError ->
  (exists e',
     insert_exceptions_decorator drv func w = (Raise e', w') /\
     exn_type e' = exn_type e /\
     (e' = e \/
      exists before after, exn_str e' = before ++ exn_str e ++ after))
  /\ (exists e',
        update_exceptions_decorator drv func w = (Raise e', w') /\
        exn_type e' = exn_type e /\
        (e' = e \/
         exists before after, exn_str e' = before ++ exn_str e ++ after)).
Proof.
  intros H Hk. destruct e as [k t]. cbn [exn_type exn_str] in *.
  split.
  - unfold insert_exceptions_decorator.
    rewrite (try_except_raise _ _ _ _ _ H).
    destruct k; try (exfalso; apply Hk; reflexivity);
      decide_clauses; unfold raise, raise_same_type; cbn [exn_type exn_str];
      (eexists; split; [reflexivity|]; split; [reflexivity|];
       first [ left; reflexivity | right; do 2 eexists; reflexivity ]).
  - unfold update_exceptions_decorator.
    rewrite (try_except_raise _ _ _ _ _ H).
    destruct k; try (exfalso; apply Hk; reflexivity);
      decide_clauses; unfold raise, raise_same_type; cbn [exn_type exn_str];
      (eexists; split; [reflexivity|]; split; [reflexivity|];
       first [ left; reflexivity | right; do 2 eexists; reflexivity ]).
Qed.

(** X4.  An index method never lets the caller see a failure of the store
    in its own class: an [OperationFailure] of any class but
    [DuplicateKeyError], an [InvalidOperation], a [ConfigurationError] or a
    [DocumentTooLarge] leaves the index decorator as a [TypeError] that
    says the exception object is not callable. *)
Theorem index_decorator_turns_store_failures_into_type_errors {A}
    (func : M Store A) (w w' : World Store) (e : exn) :
  func w = (Raise e, w') ->
  In (exn_type e)
    [OperationFailure; CursorNotFound; ExecutionTimeout; WriteConcernError;
     WTimeoutError; WriteError; BulkWriteError; InvalidOperation;
     ConfigurationError; DocumentTooLarge] ->
  index_exceptions_decorator func w
  = (Raise (mk_exn TypeError
              ("'" ++ kind_name (exn_type e) ++ "' object is not callable")),
     w').
Proof.
  intros H Hin. destruct e as [k t]. cbn [exn_type] in *.
  unfold index_exceptions_decorator.
  rewrite (try_except_raise _ _ _ _ _ H).
  each_class Hin; decide_clauses; reflexivity.
Qed.

(** X5.  An exception of a class no clause names (the errors the methods
    raise themselves, an invalid identifier, an invalid name) leaves each of
    the five decorators as it entered it. *)
Theorem decorators_pass_local_errors_unchanged {A} (func : M Store A)
    (w w' : World Store) (e : exn) :
  func w = (Raise e, w') ->
  In (exn_type e)
    [ValueError; TypeError; OverflowError; AttributeError; InvalidId;
     InvalidName] ->
  insert_exceptions_decorator drv func w = (Raise e, w') /\
  select_exceptions_decorator drv func w = (Raise e, w') /\
  update_exceptions_decorator drv func w = (Raise e, w') /\
  delete_exceptions_decorator func w = (Raise e, w') /\
  index_exceptions_decorator func w = (Raise e, w').
Proof.
  intros H Hin. destruct e as [k t]. cbn [exn_type] in *.
  unfold insert_exceptions_decorator, select_exceptions_decorator,
    update_exceptions_decorator, delete_exceptions_decorator,
    index_exceptions_decorator.
  rewrite !(try_except_raise _ _ _ _ _ H).
  each_class Hin; decide_clauses; repeat split; reflexivity.
Qed.

(** X6.  A connection failure of any class (a lost connection, a network
    timeout, a server that cannot be selected) raised during an insert, an
    update, a delete or an index method reaches the caller unchanged; only
    the select decorator takes it, and raises one of the same class with
    its own text around the text given. *)
Theorem connection_failures_are_wrapped_by_select_only {A}
    (func : M Store A) (w w' : World Store) (e : exn) :
  func w = (Raise e, w') ->
  In (exn_type e)
    [ConnectionFailure; AutoReconnect; NetworkTimeout; NotPrimaryError;
     ServerSelectionTimeoutError] ->
  insert_exceptions_decorator drv func w = (Raise e, w') /\
  update_exceptions_decorator drv func w = (Raise e, w') /\
  delete_exceptions_decorator func w = (Raise e, w') /\
  index_exceptions_decorator func w = (Raise e, w') /\
  select_exceptions_decorator drv func w
  = (Raise (mk_exn (exn_type e)
              ("Error to find  the documents." ++ exn_str e ++ nl ++
               "Check your permission to select, your cluster infrastructure and your connection to the Bank.")),
     w').
Proof.
  intros H Hin. destruct e as [k t]. cbn [exn_type exn_str] in *.
  unfold insert_exceptions_decorator, select_exceptions_decorator,
    update_exceptions_decorator, delete_exceptions_decorator,
    index_exceptions_decorator.
  rewrite !(try_except_raise _ _ _ _ _ H).
  each_class Hin; decide_clauses; repeat split; reflexivity.
Qed.

End Coverage.

(** ** The methods, one by one *)

Lemma lower_ascii_idempotent (a : ascii) :
  lower_ascii (lower_ascii a) = lower_ascii a.
Proof. destruct a as [[] [] [] [] [] [] [] []]; reflexivity. Qed.

Lemma lower_idempotent (s : string) : lower (lower s) = lower s.
Proof.
  induction s as [|a s IH]; simpl; [reflexivity|].
  now rewrite lower_ascii_idempotent, IH.
Qed.

Lemma time_units_get_supported (name : string) :
  In name ["seconds"; "minutes"; "hours"; "days"] ->
  time_units_get name <> None.
Proof.
  intros [<-|[<-|[<-|[<-|[]]]]]; discriminate.
Qed.

Section Methods.

Context {Db Coll Store : Type}.
Variable drv : Driver Db Coll Store.
Variable object_id : string -> result pyval.
Variable overflow_text : Z -> string.

Lemma insert_decorator_world {A} (func : M Store A) (w : World Store) :
  snd (insert_exceptions_decorator drv func w) = snd (func w).
Proof.
  destruct (func w) as [[a|e] w'] eqn:H.
  - unfold insert_exceptions_decorator. now rewrite (try_except_ret _ _ _ _ _ H).
  - destruct (insert_decorator_raises drv func w w' e H) as [e' ->].
    reflexivity.
Qed.

Lemma delete_decorator_world {A} (func : M Store A) (w : World Store) :
  snd (delete_exceptions_decorator func w) = snd (func w).
Proof.
  destruct (func w) as [[a|e] w'] eqn:H.
  - unfold delete_exceptions_decorator. now rewrite (try_except_ret _ _ _ _ _ H).
  - destruct (delete_decorator_raises func w w' e H) as [e' ->].
    reflexivity.
Qed.

Ltac split_options :=
  repeat match goal with
         | o : option _ |- _ => destruct o
         end.

Ltac answer_of_store :=
  match goal with
  | |- context [drv_call drv ?c ?x ?s] =>
      destruct (drv_call drv c x s) as [[?|?] ?]
  end.

(** X7.  Each of the ten methods whose body makes one call makes exactly
    that call, once, whatever the store answers: when the store raises, the
    method does not try again and the call is the only one made; when the
    store answers, the method raises nothing. *)
Theorem single_call_methods_make_one_call (db : Db) (name : string)
    (op : operation) (c : call) (w : World Store) (collection : Coll) :
  single_call op = Some c ->
  drv_get_collection drv db name (store w) = Ret collection ->
  snd (run_operation drv object_id overflow_text (Repository_init db name)
         op w)
  = mk_world (snd (drv_call drv collection c (store w))) (calls w ++ [c])
  /\ (forall a s',
        drv_call drv collection c (store w) = (Ret a, s') ->
        fst (run_operation drv object_id overflow_text
               (Repository_init db name) op w) = None).
Proof.
  intros Hsingle Hcoll.
  pose proof (get_collection_resolves drv (Repository_init db name) w
                collection Hcoll) as Hacc.
  destruct op; cbn [single_call] in Hsingle; try discriminate;
    injection Hsingle as <-; split_options;
    unfold run_operation, outcome; cbn [fst snd];
    unfold insert_one_document, insert_list_of_documents,
      select_many_documents, select_one_document, select_many_by_order,
      search_many_or, update_one_registry, update_many_registries,
      delete_registry, delete_many_registries;
    cbn [__or_query __set_query Repository_init];
    (split;
     [ rewrite ?insert_decorator_world, ?select_decorator_world,
         ?update_decorator_world, ?delete_decorator_world;
       rewrite (bind_ret _ _ w w collection Hacc);
       unfold bind, remote; answer_of_store; reflexivity
     | intros a s' Hcall;
       unfold insert_exceptions_decorator, select_exceptions_decorator,
         update_exceptions_decorator, delete_exceptions_decorator, try_except;
       rewrite (bind_ret _ _ w w collection Hacc);
       unfold bind, remote; rewrite Hcall; reflexivity ]).
Qed.

(** X8.  When the store answers, a read returns exactly what the store
    yields (for [select_one_document] that is [None] when the store found
    nothing) and a counted write returns exactly the count the store
    reports, a count of zero being returned like any other.  The return
    options go to the store as given; only [select_many_by_order] sorts, and
    an update without an operator is a [$set]. *)
Theorem methods_return_the_answer_of_the_store (db : Db) (name : string)
    (search_filter : pyval) (return_options : option pyval)
    (order_by : list (string * Z)) (properties : pyval)
    (query : option string) (w : World Store) (collection : Coll) :
  drv_get_collection drv db name (store w) = Ret collection ->
  let self := Repository_init db name in
  let operator := match query with Some q => q | None => "$set" end in
  (forall docs s',
     drv_call drv collection (Find search_filter return_options None)
       (store w) = (Ret docs, s') ->
     select_many_documents drv self search_filter return_options w
     = (Ret docs,
        mk_world s' (calls w ++ [Find search_filter return_options None])))
  /\ (forall doc s',
        drv_call drv collection (FindOne search_filter return_options)
          (store w) = (Ret doc, s') ->
        select_one_document drv self search_filter return_options w
        = (Ret doc,
           mk_world s' (calls w ++ [FindOne search_filter return_options])))
  /\ (forall docs s',
        drv_call drv collection
          (Find search_filter return_options (Some order_by)) (store w)
        = (Ret docs, s') ->
        select_many_by_order drv self search_filter order_by return_options w
        = (Ret docs,
           mk_world s'
             (calls w ++
              [Find search_filter return_options (Some order_by)])))
  /\ (forall n s',
        drv_call drv collection
          (UpdateOne search_filter (VDict [(operator, properties)]))
          (store w) = (Ret n, s') ->
        update_one_registry drv self search_filter properties query w
        = (Ret n,
           mk_world s'
             (calls w ++
              [UpdateOne search_filter (VDict [(operator, properties)])])))
  /\ (forall n s',
        drv_call drv collection
          (UpdateMany search_filter (VDict [(operator, properties)]))
          (store w) = (Ret n, s') ->
        update_many_registries drv self search_filter properties query w
        = (Ret n,
           mk_world s'
             (calls w ++
              [UpdateMany search_filter (VDict [(operator, properties)])])))
  /\ (forall n s',
        drv_call drv collection (DeleteOne search_filter) (store w)
        = (Ret n, s') ->
        delete_registry drv self search_filter w
        = (Ret n, mk_world s' (calls w ++ [DeleteOne search_filter])))
  /\ (forall n s',
        drv_call drv collection (DeleteMany search_filter) (store w)
        = (Ret n, s') ->
        delete_many_registries drv self search_filter w
        = (Ret n, mk_world s' (calls w ++ [DeleteMany search_filter]))).
Proof.
  intros Hcoll self operator. subst self operator.
  pose proof (get_collection_resolves drv (Repository_init db name) w
                collection Hcoll) as Hacc.
  destruct return_options, query;
    repeat split; intros ? s' Hcall;
    unfold select_many_documents, select_one_document, select_many_by_order,
      update_one_registry, update_many_registries, delete_registry,
      delete_many_registries, select_exceptions_decorator,
      update_exceptions_decorator, delete_exceptions_decorator, try_except;
    cbn [__set_query Repository_init];
    rewrite (bind_ret _ _ w w collection Hacc);
    unfold bind, remote; rewrite Hcall; reflexivity.
Qed.


End Methods.

(** ** Time to live, empty mappings and a store that fails part way *)

Section Loops.

Context {Db Coll Store : Type}.
Variable drv : Driver Db Coll Store.
Variable overflow_text : Z -> string.

(** X10.  The three checks [create_new_index_ttl] makes of its arguments,
    in their order, each raise before any call: a name that is none of the
    four units (in lower case) is refused whatever the direction; then a
    direction other than 1 and -1 is refused whatever the magnitude; then a
    magnitude whose expiry is out of the range of [timedelta] raises
    [OverflowError]. *)
Theorem ttl_checks_precede_the_store (db : Db) (name : string)
    (time_metric : string) (time_to_live : Z) (name_index : string)
    (order_by : Z) (w : World Store) (collection : Coll) :
  drv_get_collection drv db name (store w) = Ret collection ->
  let run :=
    create_new_index_ttl drv overflow_text (Repository_init db name)
      time_metric time_to_live name_index order_by w in
  (~ In (lower time_metric) ["seconds"; "minutes"; "hours"; "days"] ->
   run = (Raise (mk_exn ValueError
            "Invalid time metric. Please use one of: seconds, minutes, hours, days."),
          w))
  /\ (In (lower time_metric) ["seconds"; "minutes"; "hours"; "days"] ->
      order_by <> 1 -> order_by <> -1 ->
      run = (Raise (mk_exn ValueError
               "Invalid order_by parameter. Please use either 1 (ascending) or -1 (descending)."),
             w))
  /\ (forall unit_seconds,
        time_units_get (lower time_metric) = Some unit_seconds ->
        order_by = 1 \/ order_by = -1 ->
        timedelta_in_range (time_to_live * unit_seconds) = false ->
        run = (Raise (mk_exn OverflowError
                        (overflow_text (time_to_live * unit_seconds))),
               w)).
Proof.
  intros Hcoll run. subst run.
  pose proof (get_collection_resolves drv (Repository_init db name) w
                collection Hcoll) as Hacc.
  unfold create_new_index_ttl, index_exceptions_decorator.
  split; [|split].
  - intros Hunit.
    rewrite (try_except_raise _ _ w w
               (mk_exn ValueError
                  "Invalid time metric. Please use one of: seconds, minutes, hours, days."));
      [reflexivity|].
    rewrite (bind_ret _ _ w w collection Hacc).
    destruct (time_units_get (lower time_metric)) as [u|] eqn:Hu;
      [|reflexivity].
    exfalso. apply Hunit.
    pose proof (time_units_get_table _ _ Hu) as Hin. cbn [In] in Hin |- *.
    intuition congruence.
  - intros Hunit Hne1 Hne2.
    rewrite (try_except_raise _ _ w w
               (mk_exn ValueError
                  "Invalid order_by parameter. Please use either 1 (ascending) or -1 (descending)."));
      [reflexivity|].
    rewrite (bind_ret _ _ w w collection Hacc).
    destruct (time_units_get (lower time_metric)) as [u|] eqn:Hu.
    + destruct (Z.eqb_spec order_by 1); [contradiction|].
      destruct (Z.eqb_spec order_by (-1)); [contradiction|]. reflexivity.
    + exfalso. now apply (time_units_get_supported _ Hunit).
  - intros u Hu Horder Hrange.
    rewrite (try_except_raise _ _ w w
               (mk_exn OverflowError (overflow_text (time_to_live * u))));
      [reflexivity|].
    rewrite (bind_ret _ _ w w collection Hacc).
    rewrite Hu.
    assert (Hord : (order_by =? 1) || (order_by =? -1) = true)
      by (destruct Horder as [-> | ->]; reflexivity).
    rewrite Hord. unfold bind, expire_after_seconds. rewrite Hrange.
    reflexivity.
Qed.

(** X11.  The name of the time unit is read without regard to case: a name
    and its lower case give the same run of [create_new_index_ttl]. *)
Theorem ttl_unit_name_is_case_insensitive (self : @Repository Db)
    (time_metric : string) (time_to_live : Z) (name_index : string)
    (order_by : Z) (w : World Store) :
  create_new_index_ttl drv overflow_text self (lower time_metric)
    time_to_live name_index order_by w
  = create_new_index_ttl drv overflow_text self time_metric time_to_live
      name_index order_by w.
Proof.
  unfold create_new_index_ttl. now rewrite lower_idempotent.
Qed.

(** X12.  Whatever its arguments and whatever the store does,
    [create_new_index_ttl] makes no call at all or exactly one: a
    [create_index] on the one field, with a direction 1 or -1 and an expiry
    that is the magnitude times the length of a supported unit and lies in
    the range of [timedelta]. *)
Theorem ttl_sends_at_most_one_well_formed_index (self : @Repository Db)
    (time_metric : string) (time_to_live : Z) (name_index : string)
    (order_by : Z) (w : World Store) :
  let after :=
    snd (create_new_index_ttl drv overflow_text self time_metric time_to_live
           name_index order_by w) in
  after = w
  \/ exists unit_seconds,
       time_units_get (lower time_metric) = Some unit_seconds /\
       (order_by = 1 \/ order_by = -1) /\
       timedelta_in_range (time_to_live * unit_seconds) = true /\
       calls after
       = (calls w ++
          [CreateIndex [(name_index, VInt order_by)]
             (Some (VFloat (inject_Z (time_to_live * unit_seconds))))])%list.
Proof.
  intros after. subst after.
  unfold create_new_index_ttl. rewrite index_decorator_world.
  pose proof (get_collection_world drv self w) as Hw.
  destruct (__get_collection drv self w) as [[collection|e] w0] eqn:Hacc;
    cbn [snd] in Hw; subst w0;
    [ rewrite (bind_ret _ _ w w collection Hacc)
    | rewrite (bind_raise _ _ w w e Hacc); now left ].
  destruct (time_units_get (lower time_metric)) as [u|] eqn:Hu; [|now left].
  assert (Hsent :
    timedelta_in_range (time_to_live * u) = true ->
    calls (snd (bind (expire_after_seconds overflow_text time_to_live u)
                  (fun expire_after_option =>
                     bind (remote drv collection
                             (CreateIndex [(name_index, VInt order_by)]
                                (Some expire_after_option)))
                       (fun _ => ret true)) w))
    = (calls w ++
       [CreateIndex [(name_index, VInt order_by)]
          (Some (VFloat (inject_Z (time_to_live * u))))])%list).
  { intros Hr. unfold bind, expire_after_seconds. rewrite Hr.
    unfold ret, remote.
    destruct (drv_call drv collection
                (CreateIndex [(name_index, VInt order_by)]
                   (Some (VFloat (inject_Z (time_to_live * u))))) (store w))
      as [[a|e] s1]; reflexivity. }
  assert (Hrange :
    timedelta_in_range (time_to_live * u) = false ->
    snd (bind (expire_after_seconds overflow_text time_to_live u)
           (fun expire_after_option =>
              bind (remote drv collection
                      (CreateIndex [(name_index, VInt order_by)]
                         (Some expire_after_option)))
                (fun _ => ret true)) w) = w).
  { intros Hr. unfold bind, expire_after_seconds. now rewrite Hr. }
  destruct (Z.eqb_spec order_by 1) as [H1|H1];
    [|destruct (Z.eqb_spec order_by (-1)) as [H2|H2]]; cbn [orb];
    try (now left);
    (destruct (timedelta_in_range (time_to_live * u)) eqn:Hr;
     [ right; exists u;
       split; [reflexivity|]; split; [auto|]; split; [exact Hr|];
       now apply Hsent
     | left; now apply Hrange ]).
Qed.

(** X13.  An empty mapping is accepted by both loops: [create_new_index]
    returns [True] and [update_many_with_increment] returns 0, neither
    having called the store. *)
Theorem empty_mappings_reach_no_store (db : Db) (name : string)
    (search_filter : pyval) (w : World Store) (collection : Coll) :
  drv_get_collection drv db name (store w) = Ret collection ->
  create_new_index drv (Repository_init db name) [] w = (Ret true, w) /\
  update_many_with_increment drv (Repository_init db name) search_filter [] w
  = (Ret 0, w).
Proof.
  intros Hcoll.
  pose proof (get_collection_resolves drv (Repository_init db name) w
                collection Hcoll) as Hacc.
  unfold create_new_index, update_many_with_increment,
    index_exceptions_decorator, update_exceptions_decorator, try_except.
  rewrite !(bind_ret _ _ w w collection Hacc). split; reflexivity.
Qed.

Lemma increment_loop_fails (db : Db) (name : string) (collection : Coll)
    (search_filter : pyval) (before : list (string * pyval))
    (kv : string * pyval) (after : list (string * pyval)) :
  forall (acc : Z) (w : World Store) (counts : list Z) (s1 s2 : Store)
         (e : exn),
    Forall numeric_item before ->
    numeric_item kv ->
    replay drv collection (map (inc_update search_filter) before) (store w)
      = Some (counts, s1) ->
    drv_call drv collection (inc_update search_filter kv) s1 = (Raise e, s2) ->
    increment_loop drv (Repository_init db name) collection search_filter
      (before ++ kv :: after) acc w
    = (Raise e,
       mk_world s2
         (calls w ++ map (inc_update search_filter) before ++
          [inc_update search_filter kv])).
Proof.
  induction before as [|[k v] rest IH];
    intros acc w counts s1 s2 e Hnum Hkv Hrep Hcall.
  - simpl in Hrep. injection Hrep as <- <-. destruct kv as [key number].
    unfold numeric_item in Hkv. cbn [snd] in Hkv.
    cbn [app increment_loop map]. rewrite Hkv. cbn [negb].
    unfold bind, remote, increment_call.
    cbn [__increment_query Repository_init].
    unfold inc_update in Hcall. cbn [fst snd] in Hcall.
    rewrite Hcall. reflexivity.
  - inversion Hnum as [|? ? Hhead Htail]; subst.
    unfold numeric_item in Hhead. cbn [snd] in Hhead.
    cbn [map replay] in Hrep. unfold inc_update at 1 in Hrep.
    cbn [fst snd] in Hrep.
    cbn [app increment_loop]. rewrite Hhead. cbn [negb].
    unfold bind at 1. unfold remote at 1. unfold increment_call at 1.
    cbn [__increment_query Repository_init].
    destruct (drv_call drv collection
                (UpdateMany search_filter (VDict [("$inc", VDict [(k, v)])]))
                (store w))
      as [[a|e0] s0] eqn:Hfirst; [|discriminate].
    destruct (replay drv collection (map (inc_update search_filter) rest) s0)
      as [[ns s3]|] eqn:Hrest; [|discriminate].
    injection Hrep as <- <-.
    rewrite (IH (acc + a) (mk_world s0 (calls w ++ [_])) ns s3 s2 e Htail Hkv
               Hrest Hcall).
    cbn [calls map]. rewrite <- !app_assoc. reflexivity.
Qed.

(** X14.  [update_many_with_increment] is not atomic: when the store raises
    on the increment of one field, the increments of the fields before it
    have been made and stay, none is sent for the fields after it, and the
    method raises, returning no count of what it did. *)
Theorem increment_is_not_atomic (db : Db) (name : string)
    (search_filter : pyval) (before : list (string * pyval))
    (kv : string * pyval) (after : list (string * pyval)) (w : World Store)
    (collection : Coll) (counts : list Z) (s1 s2 : Store) (e : exn) :
  Forall numeric_item before ->
  numeric_item kv ->
  drv_get_collection drv db name (store w) = Ret collection ->
  replay drv collection (map (inc_update search_filter) before) (store w)
    = Some (counts, s1) ->
  drv_call drv collection (inc_update search_filter kv) s1 = (Raise e, s2) ->
  exists e',
    update_many_with_increment drv (Repository_init db name) search_filter
      (before ++ kv :: after) w
    = (Raise e',
       mk_world s2
         (calls w ++ map (inc_update search_filter) before ++
          [inc_update search_filter kv])).
Proof.
  intros Hnum Hkv Hcoll Hrep Hcall.
  unfold update_many_with_increment.
  apply (update_decorator_raises_in_place drv _ w _ e).
  rewrite (bind_ret _ _ w w collection
             (get_collection_resolves drv (Repository_init db name) w
                collection Hcoll)).
  exact (increment_loop_fails db name collection search_filter before kv after
           0 w counts s1 s2 e Hnum Hkv Hrep Hcall).
Qed.

End Loops.

(** ** The connection handler, call by call *)

Section Handles.

Context {Client Db : Type}.
Variable MongoClient : string -> result Client.
Variable client_getitem : Client -> string -> result Db.
Variable client_close : Client -> result unit.

(** X15.  When the client is built and the database is found, [connect]
    returns, and the handler, whatever it held before, holds that client
    and that database, which [get_client] and [get_connection] give, under
    the same connection string and database name. *)
Theorem connect_sets_both_handles
    (self : @Connection.MongoConnectionHandler Client Db) (client : Client)
    (db : Db) :
  MongoClient (Connection.__connection_string self) = Ret client ->
  client_getitem client (Connection.__db_name self) = Ret db ->
  exists self',
    Connection.connect MongoClient client_getitem self = (Ret tt, self') /\
    Connection.get_client self' = Some client /\
    Connection.get_connection self' = Some db /\
    Connection.__connection_string self' = Connection.__connection_string self
    /\ Connection.__db_name self' = Connection.__db_name self.
Proof.
  intros Hclient Hdb. unfold Connection.connect. rewrite Hclient.
  cbn [Connection.__db_name]. rewrite Hdb.
  eexists. split; [reflexivity|]. repeat split.
Qed.

(** X16.  When the client is built and the access to the database raises,
    [connect] fails with the handler half set: [get_client] gives the new
    client, while [get_connection] gives what it gave before the call
    ([None] on a new handler, the database of the former client on one that
    was connected). *)
Theorem connect_database_failure_keeps_the_client
    (self : @Connection.MongoConnectionHandler Client Db) (client : Client)
    (e : exn) :
  MongoClient (Connection.__connection_string self) = Ret client ->
  client_getitem client (Connection.__db_name self) = Raise e ->
  exists e' self',
    Connection.connect MongoClient client_getitem self = (Raise e', self') /\
    Connection.get_client self' = Some client /\
    Connection.get_connection self' = Connection.get_connection self /\
    (isinstance e ConnectionFailure = false -> e' = e).
Proof.
  intros Hclient Hdb. unfold Connection.connect. rewrite Hclient.
  cbn [Connection.__db_name]. rewrite Hdb.
  do 2 eexists. split; [reflexivity|]. repeat split.
  intros Hk. unfold Connection.connect_except. rewrite Hk.
  destruct (isinstance e ServerSelectionTimeoutError) eqn:Hto; [|reflexivity].
  apply timeout_is_connection_failure in Hto. congruence.
Qed.

(** X17.  When the client cannot be built, [connect] leaves the handler as
    it was, whatever it held, and tells three cases apart: a server
    selection timeout is raised again as one, with a fixed text; any other
    connection failure (a lost connection, a network timeout, a server that
    is not primary) is raised as a plain [ConnectionFailure] whose text ends
    with the database name; and any other exception is raised as it is.
    The text of the driver's exception is in neither of the two messages. *)
Theorem connect_normalises_connection_failures
    (self : @Connection.MongoConnectionHandler Client Db) (e : exn) :
  MongoClient (Connection.__connection_string self) = Raise e ->
  exists e',
    Connection.connect MongoClient client_getitem self = (Raise e', self) /\
    (exn_type e = ServerSelectionTimeoutError ->
       e' = mk_exn ServerSelectionTimeoutError
              ("TimeoutError while connecting to MongoDB." ++ nl ++
               "Unable to connect to the bank during the available timeout."
               ++ nl ++
               " Check the connection_string in your cluster infrastructure"))
    /\ (In (exn_type e)
          [ConnectionFailure; AutoReconnect; NetworkTimeout; NotPrimaryError]
        -> e' = mk_exn ConnectionFailure
                  ("ConnectionFailure." ++ nl ++
                   " Check your connection string and whether you have permission to access the"
                   ++ Connection.__db_name self))
    /\ (isinstance e ConnectionFailure = false -> e' = e).
Proof.
  intros Hclient. unfold Connection.connect. rewrite Hclient.
  eexists. split; [reflexivity|].
  unfold Connection.connect_except, isinstance.
  destruct e as [k t]. cbn [exn_type].
  split; [|split].
  - intros ->. reflexivity.
  - intros Hin. cbn [In] in Hin.
    repeat (destruct Hin as [<- | Hin]); [.. | contradiction]; reflexivity.
  - intros Hk.
    destruct (issubclass k ServerSelectionTimeoutError) eqn:Hto.
    + exfalso.
      pose proof (timeout_is_connection_failure (mk_exn k t) Hto) as Hc.
      unfold isinstance in Hc. cbn [exn_type] in Hc. congruence.
    + now rewrite Hk.
Qed.

(** X18.  [disconnect_from_mongodb] closes the client the handler holds:
    after a [connect] that returned it closes the client that [connect]
    built, and on a new handler, or on one whose only [connect] failed to
    build a client, it raises [AttributeError], there being no client. *)
Theorem disconnect_closes_the_client_of_connect
    (connection_string db_name : string) :
  let self := @Connection.init Client Db connection_string db_name in
  Connection.disconnect_from_mongodb client_close self
  = Raise (mk_exn AttributeError "'NoneType' object has no attribute 'close'")
  /\ (forall e,
        MongoClient connection_string = Raise e ->
        Connection.disconnect_from_mongodb client_close
          (snd (Connection.connect MongoClient client_getitem self))
        = Raise (mk_exn AttributeError
                   "'NoneType' object has no attribute 'close'"))
  /\ (forall client,
        MongoClient connection_string = Ret client ->
        Connection.disconnect_from_mongodb client_close
          (snd (Connection.connect MongoClient client_getitem self))
        = client_close client).
Proof.
  intros self. subst self. split; [reflexivity|]. split.
  - intros e He. unfold Connection.connect.
    cbn [Connection.init Connection.__connection_string]. rewrite He.
    reflexivity.
  - intros client Hc. unfold Connection.connect.
    cbn [Connection.init Connection.__connection_string]. rewrite Hc.
    cbn [Connection.init Connection.__db_name].
    destruct (client_getitem client db_name); reflexivity.
Qed.

End Handles.

(** ** The further properties on concrete inputs *)

(** X1 on [delete_registry] and a database that refuses the collection. *)
Lemma unresolved_collection_reaches_no_store_witness :
  exists e,
    run_operation MemStore.driver MemStore.object_id MemStore.overflow_text
      Examples.users_denied (Op_delete_registry Examples.pedro)
      Examples.two_people
    = (Some e, Examples.two_people).
Proof.
  exact (unresolved_collection_reaches_no_store MemStore.driver
           MemStore.object_id MemStore.overflow_text
           {| MemStore.authorized := false |} "users"
           (Op_delete_registry Examples.pedro) Examples.two_people
           (mk_exn OperationFailure "not authorized on the database")
           eq_refl).
Defined.

(** X2 on a database that refuses the collection. *)
Lemma accessor_flattens_operation_failures_witness :
  exists e,
    __get_collection MemStore.driver Examples.users_denied
      Examples.empty_world = (Raise e, Examples.empty_world) /\
    exn_type e = OperationFailure.
Proof.
  destruct (accessor_flattens_operation_failures MemStore.driver
              Examples.users_denied Examples.empty_world
              (mk_exn OperationFailure "not authorized on the database")
              eq_refl) as [e [Hrun [Hflat _]]].
  exists e. split; [exact Hrun|]. exact (proj1 (Hflat eq_refl)).
Defined.

(** X3 on a [ConfigurationError]. *)
Lemma insert_and_update_decorators_keep_the_class_witness :
  exists e',
    insert_exceptions_decorator MemStore.driver
      (@raise MemStore.mem Z (mk_exn ConfigurationError "unknown option"))
      Examples.empty_world = (Raise e', Examples.empty_world) /\
    exn_type e' = ConfigurationError.
Proof.
  destruct (proj1
    (insert_and_update_decorators_keep_the_class MemStore.driver
       (@raise MemStore.mem Z (mk_exn ConfigurationError "unknown option"))
       Examples.empty_world Examples.empty_world
       (mk_exn ConfigurationError "unknown option") eq_refl
       ltac:(discriminate))) as [e' [Hrun [Hk _]]].
  exists e'. split; [exact Hrun|exact Hk].
Defined.

(** X4 on an [OperationFailure]. *)
Lemma index_decorator_turns_store_failures_into_type_errors_witness :
  index_exceptions_decorator
    (@raise MemStore.mem bool (mk_exn OperationFailure "not authorized"))
    Examples.empty_world
  = (Raise (mk_exn TypeError "'OperationFailure' object is not callable"),
     Examples.empty_world).
Proof.
  exact (index_decorator_turns_store_failures_into_type_errors
           (@raise MemStore.mem bool (mk_exn OperationFailure "not authorized"))
           Examples.empty_world Examples.empty_world
           (mk_exn OperationFailure "not authorized") eq_refl
           (or_introl eq_refl)).
Defined.

(** X5 on a [ValueError]. *)
Lemma decorators_pass_local_errors_unchanged_witness :
  delete_exceptions_decorator
    (@raise MemStore.mem Z (mk_exn ValueError "not a filter"))
    Examples.empty_world
  = (Raise (mk_exn ValueError "not a filter"), Examples.empty_world).
Proof.
  exact (proj1 (proj2 (proj2 (proj2
    (decorators_pass_local_errors_unchanged MemStore.driver
       (@raise MemStore.mem Z (mk_exn ValueError "not a filter"))
       Examples.empty_world Examples.empty_world
       (mk_exn ValueError "not a filter") eq_refl (or_introl eq_refl)))))).
Defined.

(** X6 on a [NetworkTimeout]. *)
Lemma connection_failures_are_wrapped_by_select_only_witness :
  insert_exceptions_decorator MemStore.driver
    (@raise MemStore.mem Z (mk_exn NetworkTimeout "timed out"))
    Examples.empty_world
  = (Raise (mk_exn NetworkTimeout "timed out"), Examples.empty_world).
Proof.
  exact (proj1
    (connection_failures_are_wrapped_by_select_only MemStore.driver
       (@raise MemStore.mem Z (mk_exn NetworkTimeout "timed out"))
       Examples.empty_world Examples.empty_world
       (mk_exn NetworkTimeout "timed out") eq_refl
       (or_intror (or_intror (or_introl eq_refl))))).
Defined.

(** X7 on [delete_registry], a call the in-memory store refuses: the one
    call is made and nothing else. *)
Lemma single_call_methods_make_one_call_witness :
  snd (run_operation MemStore.driver MemStore.object_id
         MemStore.overflow_text Examples.users
         (Op_delete_registry Examples.pedro) Examples.two_people)
  = mk_world (store Examples.two_people) [DeleteOne Examples.pedro].
Proof.
  exact (proj1
    (single_call_methods_make_one_call MemStore.driver MemStore.object_id
       MemStore.overflow_text {| MemStore.authorized := true |} "users"
       (Op_delete_registry Examples.pedro) (DeleteOne Examples.pedro)
       Examples.two_people "users" eq_refl eq_refl)).
Defined.

(** X8 on a filter that one of the two documents matches. *)
Lemma methods_return_the_answer_of_the_store_witness :
  select_many_documents MemStore.driver Examples.users
    (VDict [("name", VStr "maria")]) None Examples.two_people
  = (Ret [Examples.maria],
     mk_world (store Examples.two_people)
       [Find (VDict [("name", VStr "maria")]) None None]).
Proof.
  exact (proj1
    (methods_return_the_answer_of_the_store MemStore.driver
       {| MemStore.authorized := true |} "users"
       (VDict [("name", VStr "maria")]) None [] VNone None
       Examples.two_people "users" eq_refl)
    [Examples.maria] (store Examples.two_people) eq_refl).
Defined.


(** X10 on a unit that is not supported, with a direction that is not
    either: the unit is what the method complains about. *)
Lemma ttl_checks_precede_the_store_witness :
  create_new_index_ttl MemStore.driver MemStore.overflow_text Examples.users
    "weeks" 2 "expiresAt" 0 Examples.empty_world
  = (Raise (mk_exn ValueError
       "Invalid time metric. Please use one of: seconds, minutes, hours, days."),
     Examples.empty_world).
Proof.
  refine (proj1
    (ttl_checks_precede_the_store MemStore.driver MemStore.overflow_text
       {| MemStore.authorized := true |} "users" "weeks" 2 "expiresAt" 0
       Examples.empty_world "users" eq_refl) _).
  cbn [In lower]. intros [H|[H|[H|[H|[]]]]]; discriminate H.
Defined.

(** X13 on the in-memory store. *)
Lemma empty_mappings_reach_no_store_witness :
  create_new_index MemStore.driver Examples.users [] Examples.two_people
  = (Ret true, Examples.two_people).
Proof.
  exact (proj1
    (empty_mappings_reach_no_store MemStore.driver
       {| MemStore.authorized := true |} "users" VNone Examples.two_people
       "users" eq_refl)).
Defined.

(** X14 on the mapping [{"age": 1, "name": 1}]: the store cannot increment
    a name, and the age stays incremented. *)
Lemma increment_is_not_atomic_witness :
  exists e',
    update_many_with_increment MemStore.driver Examples.users
      (VDict [("name", VStr "pedro")])
      ([("age", VInt 1)] ++ ("name", VInt 1) :: [("visits", VInt 1)])
      Examples.two_people
    = (Raise e',
       mk_world
         {| MemStore.documents :=
              [VDict [("name", VStr "pedro"); ("age", VInt 31);
                      ("visits", VInt 0)];
               Examples.maria];
            MemStore.indexes := [] |}
         (calls Examples.two_people ++
          map (inc_update (VDict [("name", VStr "pedro")])) [("age", VInt 1)]
          ++ [inc_update (VDict [("name", VStr "pedro")]) ("name", VInt 1)])).
Proof.
  assert (Hnum : Forall numeric_item [("age", VInt 1)])
    by (repeat constructor).
  exact (increment_is_not_atomic MemStore.driver
           {| MemStore.authorized := true |} "users"
           (VDict [("name", VStr "pedro")]) [("age", VInt 1)]
           ("name", VInt 1) [("visits", VInt 1)] Examples.two_people "users"
           [1]
           {| MemStore.documents :=
                [VDict [("name", VStr "pedro"); ("age", VInt 31);
                        ("visits", VInt 0)];
                 Examples.maria];
              MemStore.indexes := [] |}
           {| MemStore.documents :=
                [VDict [("name", VStr "pedro"); ("age", VInt 31);
                        ("visits", VInt 0)];
                 Examples.maria];
              MemStore.indexes := [] |}
           (mk_exn WriteError
              "Cannot apply $inc to a value of non-numeric type")
           Hnum eq_refl eq_refl eq_refl eq_refl).
Defined.

(** X15 on a cluster that can be reached. *)
Lemma connect_sets_both_handles_witness :
  exists self',
    Connection.connect MemStore.MongoClient MemStore.client_getitem
      (Connection.init "mongodb://localhost" "shop") = (Ret tt, self') /\
    Connection.get_client self' = Some "mongodb://localhost" /\
    Connection.get_connection self' = Some {| MemStore.authorized := true |}.
Proof.
  destruct (connect_sets_both_handles MemStore.MongoClient
              MemStore.client_getitem
              (Connection.init "mongodb://localhost" "shop")
              "mongodb://localhost" {| MemStore.authorized := true |}
              eq_refl eq_refl) as [self' [Hrun [Hc [Hd _]]]].
  exists self'. repeat split; assumption.
Defined.

(** X16 on an empty database name, which the driver refuses. *)
Lemma connect_database_failure_keeps_the_client_witness :
  exists e' self',
    Connection.connect MemStore.MongoClient MemStore.client_getitem
      (Connection.init "mongodb://localhost" EmptyString) = (Raise e', self')
    /\ Connection.get_client self' = Some "mongodb://localhost"
    /\ Connection.get_connection self' = None.
Proof.
  destruct (connect_database_failure_keeps_the_client MemStore.MongoClient
              MemStore.client_getitem
              (Connection.init "mongodb://localhost" EmptyString)
              "mongodb://localhost"
              (mk_exn InvalidName "database name cannot be the empty string")
              eq_refl eq_refl) as [e' [self' [Hrun [Hc [Hd _]]]]].
  exists e', self'. repeat split; assumption.
Defined.

(** X17 on a cluster that cannot be reached. *)
Lemma connect_normalises_connection_failures_witness :
  exists e',
    Connection.connect MemStore.MongoClient MemStore.client_getitem
      (Connection.init "down" "shop")
    = (Raise e', Connection.init "down" "shop") /\
    exn_type e' = ServerSelectionTimeoutError.
Proof.
  destruct (connect_normalises_connection_failures MemStore.MongoClient
              MemStore.client_getitem (Connection.init "down" "shop")
              (mk_exn ServerSelectionTimeoutError "No servers found yet")
              eq_refl) as [e' [Hrun [Hto _]]].
  exists e'. split; [exact Hrun|]. now rewrite (Hto eq_refl).
Defined.

(** ** Where C5 and C7 fail as stated *)

(** C5 fails as stated in its last part.  One document matches the filter
    [{"age": 30}], and with the mapping [{"age": 1, "visits": 2}] the method
    returns 1: the first increment makes the document stop matching, so the
    second update modifies nothing.  Likewise with the filter
    [{"name": "pedro"}] and the mapping [{"age": 0, "visits": 2}]: the
    increment by zero changes no document. *)
Lemma one_matching_document_and_two_fields_can_return_one :
  List.filter (MemStore.matches (VDict [("age", VInt 30)]))
    (MemStore.documents (store Examples.two_people)) = [Examples.pedro]
  /\ fst (update_many_with_increment MemStore.driver Examples.users
            (VDict [("age", VInt 30)]) [("age", VInt 1); ("visits", VInt 2)]
            Examples.two_people) = Ret 1
  /\ List.filter (MemStore.matches (VDict [("name", VStr "pedro")]))
       (MemStore.documents (store Examples.two_people)) = [Examples.pedro]
  /\ fst (update_many_with_increment MemStore.driver Examples.users
            (VDict [("name", VStr "pedro")])
            [("age", VInt 0); ("visits", VInt 2)] Examples.two_people)
     = Ret 1.
Proof. repeat split; reflexivity. Qed.

